(** * OpenFOAMPost: a shallow embedding of [ofpost.lib], [ofpost.__main__]
      and [live_residuals.py]

    The file follows the layout of the Python sources.  Python strings are
    [string]s whose characters are code points below 256, exceptions are the
    [Raise] branch of a small error monad, generators are the list of the
    values they yield together with the way they end, and the objects of
    pandas, numpy, pathlib and pyvista are modelled as far as the functions
    of the repository use them. *)

From Stdlib Require Import ZArith Lia Bool List Ascii String Floats.
From stdpp Require Import base option list strings gmap.
Import ListNotations.
Local Open Scope list_scope.
Local Open Scope string_scope.
Set Warnings "-inexact-float".

(** ** Exceptions and results *)

(** The exception classes the sources raise or catch.  [KeyboardInterrupt]
    stands for the classes that derive from [BaseException] only. *)
Inductive exn : Type :=
  | IndexError (msg : string)
  | ValueError (msg : string)
  | NameError (msg : string)
  | KeyError (msg : string)
  | OtherError (msg : string)
  | KeyboardInterrupt.

(** [isinstance(e, Exception)]. *)
Definition is_Exception (e : exn) : bool :=
  match e with
  | KeyboardInterrupt => false
  | _ => true
  end.

Inductive result (A : Type) : Type :=
  | Ok (a : A)
  | Raise (e : exn).
Arguments Ok {A} a.
Arguments Raise {A} e.

Definition rbind {A B} (r : result A) (k : A -> result B) : result B :=
  match r with
  | Ok a => k a
  | Raise e => Raise e
  end.

Notation "'do' x <- r ; k" := (rbind r (fun x => k))
  (at level 10, x name, r at level 100, k at level 200).

Definition is_Ok {A} (r : result A) : bool :=
  match r with Ok _ => true | Raise _ => false end.

(** ** Python string primitives *)

Module PyStr.

Definition chr (n : nat) : ascii := ascii_of_nat n.

Definition newline : ascii := chr 10.

(** [str.isspace] on the code points below 256. *)
Definition is_space (c : ascii) : bool :=
  let n := nat_of_ascii c in
  ((9 <=? n) && (n <=? 13) || (28 <=? n) && (n <=? 32)
   || (n =? 133) || (n =? 160))%nat.

Definition is_empty (s : string) : bool :=
  match s with EmptyString => true | String _ _ => false end.

(** The text without the characters of the class [blank] at its start, and
    at its end. *)
Fixpoint lstrip_by (blank : ascii -> bool) (s : string) : string :=
  match s with
  | EmptyString => EmptyString
  | String c s' => if blank c then lstrip_by blank s' else s
  end.

Fixpoint rstrip_by (blank : ascii -> bool) (s : string) : string :=
  match s with
  | EmptyString => EmptyString
  | String c s' =>
      let r := rstrip_by blank s' in
      if blank c && is_empty r then EmptyString else String c r
  end.

(** [s.strip()]. *)
Definition strip (s : string) : string :=
  rstrip_by is_space (lstrip_by is_space s).

(** [s.startswith(p)]. *)
Fixpoint startswith (p s : string) : bool :=
  match p, s with
  | EmptyString, _ => true
  | String a p', String b s' => Ascii.eqb a b && startswith p' s'
  | String _ _, EmptyString => false
  end.

(** The rest of [s] after the prefix [p], when [s] starts with [p]. *)
Fixpoint drop_prefix (p s : string) : option string :=
  match p, s with
  | EmptyString, _ => Some s
  | String a p', String b s' =>
      if Ascii.eqb a b then drop_prefix p' s' else None
  | String _ _, EmptyString => None
  end.

(** [s.removeprefix(p)]. *)
Definition removeprefix (p s : string) : string :=
  match drop_prefix p s with
  | Some r => r
  | None => s
  end.

(** [s.endswith(p)] and [s.removesuffix(p)], by way of the reversed
    strings. *)
Definition endswith (p s : string) : bool :=
  startswith (String.rev p) (String.rev s).

Definition removesuffix (p s : string) : string :=
  if endswith p s
  then String.substring 0 (String.length s - String.length p) s
  else s.

(** [s.replace(c, '')] for a one-character [c]. *)
Fixpoint remove_char (c : ascii) (s : string) : string :=
  match s with
  | EmptyString => EmptyString
  | String a s' =>
      if Ascii.eqb a c then remove_char c s' else String a (remove_char c s')
  end.

(** [s.replace(c, d)] for one-character [c] and [d]. *)
Fixpoint replace_char (c d : ascii) (s : string) : string :=
  match s with
  | EmptyString => EmptyString
  | String a s' =>
      String (if Ascii.eqb a c then d else a) (replace_char c d s')
  end.

(** [c in s]. *)
Fixpoint contains (c : ascii) (s : string) : bool :=
  match s with
  | EmptyString => false
  | String a s' => Ascii.eqb a c || contains c s'
  end.

(** [s.split()]: the maximal runs of characters that are not white space.
    [cur] is the run being read. *)
Fixpoint split_go (cur : option string) (s : string) : list string :=
  match s with
  | EmptyString =>
      match cur with Some w => [w] | None => [] end
  | String c s' =>
      if is_space c then
        match cur with
        | Some w => w :: split_go None s'
        | None => split_go None s'
        end
      else
        split_go (Some (match cur with
                        | Some w => w ++ String c EmptyString
                        | None => String c EmptyString
                        end)) s'
  end.

Definition split (s : string) : list string := split_go None s.

(** [s.split(sep)] for a one-character separator: the pieces between the
    separators, empty pieces included. *)
Fixpoint split_on_go (sep : ascii) (cur : string) (s : string) : list string :=
  match s with
  | EmptyString => [cur]
  | String c s' =>
      if Ascii.eqb c sep then cur :: split_on_go sep EmptyString s'
      else split_on_go sep (cur ++ String c EmptyString) s'
  end.

Definition split_on (sep : ascii) (s : string) : list string :=
  split_on_go sep EmptyString s.

(** The lines of a text file as iteration over the file or [readlines]
    gives them: each line keeps its final newline, and only the last one
    may lack it.  The text is what Python has decoded, with every end of
    line already turned into a newline. *)
Fixpoint lines_go (cur : string) (s : string) : list string :=
  match s with
  | EmptyString => if is_empty cur then [] else [cur]
  | String c s' =>
      if Ascii.eqb c newline
      then (cur ++ String c EmptyString) :: lines_go EmptyString s'
      else lines_go (cur ++ String c EmptyString) s'
  end.

Definition file_lines (content : string) : list string :=
  lines_go EmptyString content.

(** [str.lower] on the ASCII letters. *)
Definition lower_char (c : ascii) : ascii :=
  let n := nat_of_ascii c in
  if ((65 <=? n) && (n <=? 90))%nat then chr (n + 32) else c.

Fixpoint lower (s : string) : string :=
  match s with
  | EmptyString => EmptyString
  | String c s' => String (lower_char c) (lower s')
  end.

(** [sep.join(l)]. *)
Fixpoint join (sep : string) (l : list string) : string :=
  match l with
  | [] => EmptyString
  | [x] => x
  | x :: l' => x ++ sep ++ join sep l'
  end.

End PyStr.

(** ** The regular expressions of the sources *)

Module Re.
Import PyStr.

(** The text up to the first [c], when no newline comes before it: what a
    (lazy or greedy) [.*] followed by the literal [c] can reach, since [.]
    does not match a newline. *)
Fixpoint until (c : ascii) (s : string) : option string :=
  match s with
  | EmptyString => None
  | String a s' =>
      if Ascii.eqb a c then Some EmptyString
      else if Ascii.eqb a newline then None
      else option_map (String a) (until c s')
  end.

(** [re.match(r'\[.*\]', s) is not None]: [s] starts with an opening
    bracket and a closing bracket follows on the same line. *)
Definition match_unit (s : string) : bool :=
  match s with
  | String a s' => Ascii.eqb a "[" && bool_decide (is_Some (until "]" s'))
  | EmptyString => false
  end.

(** [re.search(prefix + r'(.*?)\)', s)] for a literal [prefix]; the result
    is [group(1)] of the leftmost match. *)
Fixpoint search_group (prefix : string) (s : string) : option string :=
  match
    match drop_prefix prefix s with
    | Some rest => until ")" rest
    | None => None
    end
  with
  | Some g => Some g
  | None =>
      match s with
      | EmptyString => None
      | String _ s' => search_group prefix s'
      end
  end.

(** [re.search(r'\((.*?)\)', s)]. *)
Definition search_paren : string -> option string := search_group "(".

(** [re.search(r'forces\((.*?)\)', s)]. *)
Definition search_forces : string -> option string := search_group "forces(".

(** [re.sub(r'\[.*?\]', '', s)]: every text between an opening bracket and
    the first closing bracket after it on the same line is removed, from
    left to right.  [pending] is the text read since an opening bracket
    that is not closed yet; it stays when the line or the text ends
    first. *)
Fixpoint sub_units_go (pending : option string) (s : string) : string :=
  match s with
  | EmptyString =>
      match pending with Some kept => kept | None => EmptyString end
  | String c s' =>
      match pending with
      | None =>
          if Ascii.eqb c "["
          then sub_units_go (Some (String c EmptyString)) s'
          else String c (sub_units_go None s')
      | Some kept =>
          if Ascii.eqb c "]" then sub_units_go None s'
          else if Ascii.eqb c newline
          then kept ++ String c (sub_units_go None s')
          else sub_units_go (Some (kept ++ String c EmptyString)) s'
      end
  end.

Definition sub_units : string -> string := sub_units_go None.

(** [re.sub(r'\s+', '', s)]. *)
Fixpoint sub_spaces (s : string) : string :=
  match s with
  | EmptyString => EmptyString
  | String c s' =>
      if is_space c then sub_spaces s' else String c (sub_spaces s')
  end.

End Re.

(** ** [float(s)]: which strings Python accepts *)

Module PyFloat.
Import PyStr.

Definition is_digit (c : ascii) : bool :=
  let n := nat_of_ascii c in ((48 <=? n) && (n <=? 57))%nat.

(** The rest of a [digitpart] whose first digit has been read: digits, and
    single underscores between digits. *)
Fixpoint digits_rest (s : string) : string :=
  match s with
  | EmptyString => EmptyString
  | String c s' =>
      if is_digit c then digits_rest s'
      else if Ascii.eqb c "_" then
        match s' with
        | String d s'' => if is_digit d then digits_rest s'' else s
        | EmptyString => s
        end
      else s
  end.

(** Reads a [digitpart] and returns what follows it. *)
Definition digitpart (s : string) : option string :=
  match s with
  | String c s' => if is_digit c then Some (digits_rest s') else None
  | EmptyString => None
  end.

Definition sign_opt (s : string) : string :=
  match s with
  | String c s' => if Ascii.eqb c "+" || Ascii.eqb c "-" then s' else s
  | EmptyString => s
  end.

(** [number ::= [digitpart] "." digitpart | digitpart ["."]]. *)
Definition number (s : string) : option string :=
  match digitpart s with
  | Some r =>
      match r with
      | String c r' =>
          if Ascii.eqb c "." then
            match digitpart r' with
            | Some r'' => Some r''
            | None => Some r'
            end
          else Some r
      | EmptyString => Some r
      end
  | None =>
      match s with
      | String c s' => if Ascii.eqb c "." then digitpart s' else None
      | EmptyString => None
      end
  end.

(** [exponent ::= ("e" | "E") [sign] digitpart], optional. *)
Definition exponent_opt (s : string) : option string :=
  match s with
  | String c s' =>
      if Ascii.eqb c "e" || Ascii.eqb c "E" then digitpart (sign_opt s')
      else Some s
  | EmptyString => Some s
  end.

Definition floatnumber (s : string) : bool :=
  match number s with
  | Some r =>
      match exponent_opt r with
      | Some r' => is_empty r'
      | None => false
      end
  | None => false
  end.

(** The white space [float] ignores around the text: the white space of C,
    and the two other space characters below 256.  The separators 28 to 31,
    which [str.strip] removes, are not part of it. *)
Definition is_blank (c : ascii) : bool :=
  let n := nat_of_ascii c in
  ((9 <=? n) && (n <=? 13) || (n =? 32) || (n =? 133) || (n =? 160))%nat.

(** [float(s)] does not raise [ValueError]: white space around the text is
    ignored, then comes an optional sign and a number, an infinity or a
    NaN, in any case of letters. *)
Definition parses (s : string) : bool :=
  let t := lower (sign_opt (rstrip_by is_blank (lstrip_by is_blank s))) in
  String.eqb t "inf" || String.eqb t "infinity" || String.eqb t "nan"
  || floatnumber t.

End PyFloat.

(** ** [pathlib.PurePosixPath] *)

Module Pathlib.
Import PyStr.

(** A path is its root (empty, one slash or two) and its components. *)
Record PurePath : Type := mkPath { root : string; tail : list string }.

Definition is_part (x : string) : bool :=
  negb (is_empty x) && negb (String.eqb x ".").

(** [posixpath.splitroot]: exactly two leading slashes are kept as they
    are, any other number of them is one slash. *)
Definition parse_root (s : string) : string :=
  if startswith "/" s then
    if startswith "//" s && negb (startswith "///" s) then "//" else "/"
  else "".

(** [Path(s)]: empty components and [.] are dropped. *)
Definition Path (s : string) : PurePath :=
  {| root := parse_root s;
     tail := List.filter is_part (split_on "/" s) |}.

Definition is_absolute (p : PurePath) : bool := negb (is_empty (root p)).

(** [p.name]: the last component, or the empty string. *)
Definition name (p : PurePath) : string := List.last (tail p) "".

(** [p.parent]: a path without components is its own parent. *)
Definition parent (p : PurePath) : PurePath :=
  {| root := root p; tail := List.removelast (tail p) |}.

(** [s.rfind(c)]. *)
Fixpoint rfind (c : ascii) (s : string) : option nat :=
  match s with
  | EmptyString => None
  | String a s' =>
      match rfind c s' with
      | Some i => Some (S i)
      | None => if Ascii.eqb a c then Some 0 else None
      end
  end.

(** [p.stem], as Python 3.12 and 3.13 compute it: the name up to its last
    dot, unless that dot is the first or the last character of the name. *)
Definition stem (p : PurePath) : string :=
  let n := name p in
  match rfind "." n with
  | Some i =>
      if ((0 <? i) && (i <? String.length n - 1))%nat
      then String.substring 0 i n
      else n
  | None => n
  end.

(** [p / s]: an absolute [s] replaces [p]. *)
Definition joinpath (p : PurePath) (s : string) : PurePath :=
  if startswith "/" s then Path s
  else {| root := root p; tail := (tail p ++ tail (Path s))%list |}.

(** [p / q] for a path [q]. *)
Definition joinpath_path (p q : PurePath) : PurePath :=
  if is_absolute q then q
  else {| root := root p; tail := (tail p ++ tail q)%list |}.

(** [str(p)]. *)
Definition to_str (p : PurePath) : string :=
  match tail p with
  | [] => if is_empty (root p) then "." else root p
  | _ => root p ++ join "/" (tail p)
  end.

Section Match.
(** [fnmatch case_sensitive pat s]: the component [s] matches the glob
    [pat], which has no separator, as [fnmatch.translate] and [re]
    decide it. *)
Variable fnmatch : bool -> string -> string -> bool.

(** Components compared from the last one backwards. *)
Fixpoint match_rev (cs : bool) (pat path : list string) : bool :=
  match pat, path with
  | [], _ => true
  | _ :: _, [] => false
  | x :: pat', y :: path' => fnmatch cs x y && match_rev cs pat' path'
  end.

(** [p.match(pattern, case_sensitive=cs)]: an absolute pattern must match
    the whole path, a relative one matches from the right, and a pattern
    without components is refused. *)
Definition path_match (p : PurePath) (pattern : string) (cs : bool)
  : result bool :=
  let pat := Path pattern in
  if is_absolute pat then
    Ok (String.eqb (root pat) (root p)
        && (length (tail pat) =? length (tail p))%nat
        && match_rev cs (rev (tail pat)) (rev (tail p)))
  else
    match tail pat with
    | [] => Raise (ValueError "empty pattern")
    | _ => Ok (match_rev cs (rev (tail pat)) (rev (tail p)))
    end.
End Match.

(** An instance of the component matcher: [*] is any text, [?] any
    character, every other character stands for itself, and letters are
    compared without their case when [cs] is false.  It agrees with
    [fnmatch] on ASCII patterns without bracket expressions and names that
    are not empty. *)
Definition char_eq (cs : bool) (a b : ascii) : bool :=
  if cs then Ascii.eqb a b else Ascii.eqb (lower_char a) (lower_char b).

Fixpoint glob (cs : bool) (pat : string) : string -> bool :=
  match pat with
  | EmptyString => is_empty
  | String a pat' =>
      if Ascii.eqb a "*" then
        fix star (s : string) : bool :=
          glob cs pat' s
          || match s with
             | EmptyString => false
             | String _ s' => star s'
             end
      else if Ascii.eqb a "?" then
        fun s => match s with
                 | EmptyString => false
                 | String _ s' => glob cs pat' s'
                 end
      else
        fun s => match s with
                 | EmptyString => false
                 | String b s' => char_eq cs a b && glob cs pat' s'
                 end
  end.

End Pathlib.

(** ** Printed output *)

(** What the program prints, one constructor per [print] of the sources;
    [Unable] stands for the error line and the traceback after it, [Report]
    for whatever a file reader prints or writes on its own. *)
Inductive event : Type :=
  | Looking (pattern : string) (path : Pathlib.PurePath)
  | NotFound (pattern : string)
  | Processing (filepath : Pathlib.PurePath)
  | Unable (name : string) (e : exn)
  | Report (what : string).

(** A computation prints and then returns or raises. *)
Definition io (A : Type) : Type := (list event * result A)%type.

Definition io_ret {A} (a : A) : io A := ([], Ok a).

Definition io_bind {A B} (m : io A) (k : A -> io B) : io B :=
  match m with
  | (out, Ok a) => let '(out', r) := k a in ((out ++ out')%list, r)
  | (out, Raise e) => (out, Raise e)
  end.

(** ** [ofpost/lib.py] *)

Module Lib.
Import PyStr Pathlib.

Section Constants.
(** The constants [lib.py] imports from the package, and the component
    matcher of [pathlib]. *)
Variable EXTENSION : string.
Variable UNITS_OF_MEASURE : gmap string string.
Variable COMPONENTS_EXT : list string.
Variable fnmatch : bool -> string -> string -> bool.

(** *** [find_files] *)

(** The two tests of the loop body on one entry [file] of [files]:
    [Ok true] when the file is to be yielded.  The exclusions are all
    evaluated, as the list comprehension does, before [any] looks at
    them. *)
Fixpoint match_all (file : PurePath) (exceptions : list string)
  : result (list bool) :=
  match exceptions with
  | [] => Ok []
  | exc :: rest =>
      do b <- path_match fnmatch file exc false;
      do bs <- match_all file rest;
      Ok (b :: bs)
  end.

Definition any (bs : list bool) : bool := existsb (fun b => b) bs.

Definition keep (pattern : string) (exceptions : list string)
  (file : string) : result bool :=
  let file := Path file in
  do m <- path_match fnmatch file pattern false;
  if negb m then Ok false
  else
    do ex <- match_all file exceptions;
    if any ex then Ok false else Ok true.

(** The inner loop over the files of one directory.  The state is
    [is_found]; the result is the paths yielded, the state after them,
    and the exception that ended the loop, if one did. *)
Fixpoint find_in_files (pattern : string) (exceptions : list string)
  (dir : PurePath) (files : list string) (is_found : bool)
  : list PurePath * bool * option exn :=
  match files with
  | [] => ([], is_found, None)
  | file :: rest =>
      match keep pattern exceptions file with
      | Raise e => ([], is_found, Some e)
      | Ok false => find_in_files pattern exceptions dir rest is_found
      | Ok true =>
          let '(ys, found, e) :=
            find_in_files pattern exceptions dir rest true in
          (joinpath_path dir (Path file) :: ys, found, e)
      end
  end.

(** The outer loop over what [path.walk] gives: the directories from the
    top down, each with the names of its files. *)
Fixpoint find_in_walk (pattern : string) (exceptions : list string)
  (walk : list (PurePath * list string)) (is_found : bool)
  : list PurePath * bool * option exn :=
  match walk with
  | [] => ([], is_found, None)
  | (dir, files) :: rest =>
      match find_in_files pattern exceptions dir files is_found with
      | (ys, found, Some e) => (ys, found, Some e)
      | (ys, found, None) =>
          let '(ys', found', e) :=
            find_in_walk pattern exceptions rest found in
          ((ys ++ ys')%list, found', e)
      end
  end.

(** How a generator ends: it returns, after printing what is left to
    print, or it raises. *)
Inductive ending : Type :=
  | Finished (out : list event)
  | Raised (e : exn).

Record generated : Type :=
  { first_out : list event; yields : list PurePath; the_end : ending }.

Definition find_files (pattern : string) (path : PurePath)
  (walk : list (PurePath * list string)) (exceptions : list string)
  : generated :=
  let '(ys, is_found, e) := find_in_walk pattern exceptions walk false in
  {| first_out := [Looking pattern path];
     yields := ys;
     the_end :=
       match e with
       | Some e => Raised e
       | None => Finished (if is_found then [] else [NotFound pattern])
       end |}.

(** *** [read_file_decorator] *)

Definition read_file_decorator {A : Type} (read_file : PurePath -> io A)
  : PurePath -> io (option A) :=
  fun filepath =>
    match read_file filepath with
    | (out, Ok v) => (Processing filepath :: out, Ok (Some v))
    | (out, Raise e) =>
        if is_Exception e
        then ((Processing filepath :: out ++ [Unable (name filepath) e])%list,
              Ok None)
        else (Processing filepath :: out, Raise e)
    end.

(** *** [get_output_filepath] *)

(** The function also prints the output path, which is the first component
    of what it returns. *)
Definition get_output_filepath (filepath : PurePath) (filesuffix : string)
  : PurePath * string * string * string :=
  let filename := stem filepath in
  let timestep := name (parent filepath) in
  let timestep := if PyFloat.parses timestep then timestep else "0" in
  let outpath := parent (parent filepath) in
  let outdirname := name outpath in
  let outfilename := filename in
  let outfilename :=
    if negb (String.eqb filesuffix "") then
      let filesuffix := remove_char "/" filesuffix in
      let filesuffix := remove_char "\" filesuffix in
      let filesuffix := remove_char " " filesuffix in
      outfilename ++ "_" ++ filesuffix
    else outfilename in
  let outfilename :=
    if negb (String.eqb timestep "0") then outfilename ++ "_" ++ timestep
    else outfilename in
  let outfilename := outfilename ++ EXTENSION in
  let outfilepath := joinpath outpath outfilename in
  (outfilepath, filename, timestep, outdirname).

(** *** [get_units] *)

Definition lookup_units (array_name : string) : result string :=
  match UNITS_OF_MEASURE !! array_name with
  | Some u => Ok (" [" ++ u ++ "]")
  | None => Raise (KeyError array_name)
  end.

(** The loop over [COMPONENTS_EXT]: the first suffix the name ends with
    is removed. *)
Fixpoint strip_component (comps : list string) (array_name : string)
  : string :=
  match comps with
  | [] => array_name
  | comp :: rest =>
      if endswith comp array_name then removesuffix comp array_name
      else strip_component rest array_name
  end.

Definition get_units (array_name : string) : string :=
  match lookup_units array_name with
  | Ok units => units
  | Raise _ =>
      let retry :=
        match Re.search_paren array_name with
        | Some group =>
            (group,
             match lookup_units group with
             | Ok units => Some units
             | Raise _ => None
             end)
        | None => (array_name, None)
        end in
      match retry with
      | (_, Some units) => units
      | (array_name, None) =>
          let array_name := strip_component COMPONENTS_EXT array_name in
          match lookup_units array_name with
          | Ok units => units
          | Raise _ => ""
          end
      end
  end.

(** *** [read_labels] *)

(** The loop over the lines of the file: it stops at the first line that
    is not a comment, and [orig_labels] is the last comment line seen,
    unbound when there was none. *)
Fixpoint last_comment (lines : list string) (orig_labels : option string)
  : option string :=
  match lines with
  | [] => orig_labels
  | line :: rest =>
      match line with
      | EmptyString => orig_labels
      | String c _ =>
          if negb (Ascii.eqb c "#") then orig_labels
          else last_comment rest (Some line)
      end
  end.

(** The loop that builds [labels]; [labels[-1] += ...] needs a last
    element. *)
Fixpoint merge_labels (orig_labels : list string) (labels : list string)
  : result (list string) :=
  match orig_labels with
  | [] => Ok labels
  | label :: rest =>
      if negb (Re.match_unit label)
      then merge_labels rest (labels ++ [label])%list
      else
        match labels with
        | [] => Raise (IndexError "list index out of range")
        | _ =>
            let merged := List.last labels "" ++ " " ++ label in
            merge_labels rest (removelast labels ++ [merged])%list
        end
  end.

(** The words of the label line, as the [try] block computes them. *)
Definition label_tokens (line : string) : list string :=
  split (removeprefix "#" (strip line)).

Definition read_labels (content : string) : result (list string) :=
  let orig_labels := last_comment (file_lines content) None in
  let tried :=
    match orig_labels with
    | None => Raise (NameError "orig_labels")
    | Some line => Ok (label_tokens line)
    end in
  match tried with
  | Raise _ => Ok []
  | Ok orig_labels => merge_labels orig_labels []
  end.

(** *** [adjust_camera] *)

(** The bounds are doubles, as numpy has them: the subtraction rounds and
    may overflow to infinity, a comparison with a NaN is false, and
    [1e-16] is the double next to that number. *)
Definition threshold : float := 1e-16%float.

(** [np.minimum(a, b)], which hands a NaN on, and [np.min(a)]. *)
Definition np_minimum (a b : float) : float :=
  if PrimFloat.leb a b || PrimFloat.is_nan a then a else b.

Definition np_min (a : list float) : result float :=
  match a with
  | [] =>
      Raise (ValueError "zero-size array to reduction operation minimum")
  | x :: rest => Ok (fold_left np_minimum rest x)
  end.

(** [np.where(mask)]: the indices at which the mask holds. *)
Fixpoint where_from (i : nat) (mask : list bool) : list nat :=
  match mask with
  | [] => []
  | b :: rest =>
      if b then i :: where_from (S i) rest else where_from (S i) rest
  end.

Definition np_where (mask : list bool) : list nat := where_from 0 mask.

(** [a[start:stop:step]] for a positive step. *)
Fixpoint every_go {A : Type} (step k : nat) (a : list A) : list A :=
  match a with
  | [] => []
  | x :: rest =>
      match k with
      | O => x :: every_go step (step - 1) rest
      | S k' => every_go step k' rest
      end
  end.

Definition np_slice {A : Type} (start stop step : nat) (a : list A)
  : list A :=
  every_go step 0 (skipn start (firstn stop a)).

(** [a[idx] = v] for an array of indices [idx], all of them positions
    of [a] since [np.where] found them there. *)
Definition assign {A : Type} (idx : list nat) (v : A) (a : list A)
  : list A :=
  fold_left (fun acc i => <[i:=v]> acc) idx a.

(** [x - y] and [x + y] on arrays of the same length. *)
Fixpoint np_zip (f : float -> float -> float) (x y : list float)
  : list float :=
  match x, y with
  | a :: x', b :: y' => f a b :: np_zip f x' y'
  | _, _ => []
  end.

(** [mesh.bounds] is [(x_min, x_max, y_min, y_max, z_min, z_max)] and
    [mesh.center] is a point. *)
Record Mesh : Type :=
  { bounds : float * float * float * float * float * float;
    center : float * float * float }.

Definition bounds_array (m : Mesh) : list float :=
  let '(x0, x1, y0, y1, z0, z1) := bounds m in [x0; x1; y0; y1; z0; z1].

Definition center_array (m : Mesh) : list float :=
  let '(x, y, z) := center m in [x; y; z].

(** What [adjust_camera] does to the plotter. *)
Inductive plotter_op : Type :=
  | SetCameraPosition (position focal_point view_up : list float)
  | ResetCamera
  | ZoomCamera (zoom : float).

Variable CAMERA_ZOOM : float.

Definition adjust_camera (mesh : Mesh) : result (list plotter_op) :=
  let bounds := bounds_array mesh in
  let delta_bounds :=
    map PrimFloat.abs
      (np_zip PrimFloat.sub
         (np_slice 1 (length bounds) 2 bounds)
         (np_slice 0 (length bounds - 1) 2 bounds)) in
  let normal_idx :=
    np_where (map (fun d => PrimFloat.ltb d threshold) delta_bounds) in
  if negb (length normal_idx =? 1)%nat then Ok [ResetCamera]
  else
    let normal := assign normal_idx 1%float [0; 0; 0]%float in
    let camera_position :=
      np_zip PrimFloat.add (center_array mesh) normal in
    let focal_point := center_array mesh in
    let delta_bounds := assign normal_idx infinity delta_bounds in
    do min_bound <- np_min delta_bounds;
    let min_indices :=
      np_where (map (fun d => PrimFloat.eqb d min_bound) delta_bounds) in
    match min_indices with
    | [] => Raise (IndexError "index -1 is out of bounds")
    | _ =>
        let view_up_idx := List.last min_indices O in
        let view_up :=
          <[view_up_idx := if negb (view_up_idx =? 2)%nat
                           then 1%float else (-1)%float]>
            [0; 0; 0]%float in
        Ok [SetCameraPosition camera_position focal_point view_up;
            ResetCamera;
            ZoomCamera CAMERA_ZOOM]
    end.

(** *** [read_forces] *)

Section Forces.
(** The numbers of a table, with the addition [sum] uses and the value
    of an empty sum. *)
Variable num : Type.
Variable zero : num.
Variable add : num -> num -> num.
Variable FORCE_LABEL MOMENT_LABEL : string.

(** A [pandas.DataFrame]: its index has [nrows] entries, and every
    column has a label and one number per entry. *)
Record DataFrame : Type :=
  { nrows : nat; columns : list (string * list num) }.

Definition ncols (df : DataFrame) : nat := length (columns df).

(** [df.iloc[:, i]]. *)
Definition iloc_col (df : DataFrame) (i : nat) : result (list num) :=
  match nth_error (columns df) i with
  | Some (_, c) => Ok c
  | None =>
      Raise (IndexError "single positional indexer is out-of-bounds")
  end.

(** [df.iloc[:, axes]] for a list of positions. *)
Definition iloc_cols (df : DataFrame) (axes : list nat)
  : result DataFrame :=
  if forallb (fun i => (i <? ncols df)%nat) axes then
    Ok {| nrows := nrows df;
          columns :=
            map (fun i => nth i (columns df) (EmptyString, [])) axes |}
  else Raise (IndexError "positional indexers are out-of-bounds").

(** [df.sum(axis=1)]: one sum per entry of the index, over the columns
    from left to right. *)
Definition sum_axis1 (df : DataFrame) : list num :=
  map (fun r =>
         fold_left add (map (fun c => nth r (snd c) zero) (columns df))
           zero)
      (seq 0 (nrows df)).

(** [df[label] = column]: a column with this label is replaced where
    it stands, a new label is added at the end. *)
Fixpoint set_column (df : list (string * list num)) (label : string)
  (column : list num) : list (string * list num) :=
  match df with
  | [] => [(label, column)]
  | (l, c) :: rest =>
      if String.eqb l label then (label, column) :: rest
      else (l, c) :: set_column rest label column
  end.

(** [zip(a, b)]. *)
Fixpoint zip {A B : Type} (a : list A) (b : list B) : list (A * B) :=
  match a, b with
  | x :: a', y :: b' => (x, y) :: zip a' b'
  | _, _ => []
  end.

(** The loop of [sum_contribs] over the three components. *)
Fixpoint sum_loop (data : DataFrame) (n_contribs : nat)
  (todo : list (nat * string)) (df : list (string * list num))
  : result (list (string * list num)) :=
  match todo with
  | [] => Ok df
  | (index, label) :: rest =>
      let sum_axes :=
        map (fun n => index + 3 * n)%nat (seq 0 n_contribs) in
      do sub <- iloc_cols data sum_axes;
      sum_loop data n_contribs rest
        (set_column df label (sum_axis1 sub))
  end.

Definition sum_contribs (data : DataFrame) (start_index : nat)
  (label : string) (n_contribs : nat)
  : result (list (string * list num)) :=
  do time <- iloc_col data 0;
  let df := set_column [] "Time" time in
  let indices := seq start_index 3 in
  let labels := map (fun comp => label ++ comp) COMPONENTS_EXT in
  sum_loop data n_contribs (zip indices labels) df.

(** [len(contribs.group(1).split())], or 0 when that raises because
    nothing matched. *)
Definition count_contribs (content : string) : nat :=
  match Re.search_forces content with
  | Some group => length (split group)
  | None => 0
  end.

(** The text handed to [pd.read_csv]. *)
Definition without_brackets (content : string) : string :=
  replace_char ")" " " (replace_char "(" " " content).

(** [plot_data(df, filepath, filesuffix=...)] draws with matplotlib,
    and [read_csv content] is the table pandas reads from a text. *)
Variable plot_data :
  list (string * list num) -> PurePath -> string -> io unit.
Variable read_csv : string -> result DataFrame.

(** The body of [read_forces], before the decorator. *)
Definition read_forces_body (content : string) (filepath : PurePath)
  : io unit :=
  let n_contribs := count_contribs content in
  let content := without_brackets content in
  io_bind ([], read_csv content) (fun data =>
  let start_index := 1%nat in
  io_bind ([], sum_contribs data start_index FORCE_LABEL n_contribs)
    (fun forces =>
  io_bind (plot_data forces filepath "forces") (fun _ =>
  let start_index := (1 + 3 * n_contribs)%nat in
  io_bind ([], sum_contribs data start_index MOMENT_LABEL n_contribs)
    (fun moments =>
  plot_data moments filepath "moments")))).

Definition read_forces (content : string)
  : PurePath -> io (option unit) :=
  read_file_decorator (read_forces_body content).

End Forces.

(** *** [vtk2image]: the arrays of the mesh and the images asked for *)

(** A dictionary that keeps the order of its keys, as the arrays of a
    mesh do: [d[key]], [d[key] = value], which replaces the value of a
    key where it stands and adds a new key at the end, and [d.pop(key)]. *)
Fixpoint dict_get {V : Type} (d : list (string * V)) (key : string)
  : result V :=
  match d with
  | [] => Raise (KeyError key)
  | (k, v) :: rest => if String.eqb k key then Ok v else dict_get rest key
  end.

Fixpoint dict_set {V : Type} (d : list (string * V)) (key : string)
  (value : V) : list (string * V) :=
  match d with
  | [] => [(key, value)]
  | (k, v) :: rest =>
      if String.eqb k key then (key, value) :: rest
      else (k, v) :: dict_set rest key value
  end.

Definition dict_remove {V : Type} (d : list (string * V)) (key : string)
  : list (string * V) :=
  List.filter (fun entry => negb (String.eqb (fst entry) key)) d.

Definition dict_pop {V : Type} (d : list (string * V)) (key : string)
  : result (V * list (string * V)) :=
  do value <- dict_get d key;
  Ok (value, dict_remove d key).

Section Vtk.
Variable scalar : Type.
Variables MAGNITUDE_EXT DEFAULT_COLORMAP : string.
Variable COLORMAPS : gmap string string.

(** An array of a mesh: one number per cell or point, or a table of
    shape (rows, number of columns), given by its columns. *)
Inductive ndarray : Type :=
  | Array1 (values : list scalar)
  | Array2 (rows : nat) (columns : list (list scalar)).

(** [len(array)] and [array.shape[-1]]. *)
Definition len (array : ndarray) : nat :=
  match array with
  | Array1 values => length values
  | Array2 rows _ => rows
  end.

Definition last_dim (array : ndarray) : nat :=
  match array with
  | Array1 values => length values
  | Array2 _ columns => length columns
  end.

(** [array[:, index]]. *)
Definition column (array : ndarray) (index : nat) : result ndarray :=
  match array with
  | Array1 _ => Raise (IndexError "too many indices for array")
  | Array2 _ columns =>
      match nth_error columns index with
      | Some values => Ok (Array1 values)
      | None => Raise (IndexError "index is out of bounds for axis 1")
      end
  end.

(** The arrays to draw: those of the cells when there are any, those of
    the points otherwise. *)
Definition load_data (cell_data point_data : list (string * ndarray))
  : io (list (string * ndarray)) :=
  if (0 <? length cell_data)%nat
  then ([Report "Loading cell data..."], Ok cell_data)
  else if (0 <? length point_data)%nat
  then ([Report "Loading point data..."], Ok point_data)
  else ([], Raise (ValueError "ERROR: empty file.")).

(** The loop over [enumerate(COMPONENTS_EXT)] for one array. *)
Fixpoint split_components (array : ndarray)
  (array_name units array_cmap : string) (comps : list string)
  (index : nat) (data : list (string * ndarray))
  (colormaps : gmap string string)
  : result (list (string * ndarray) * gmap string string) :=
  match comps with
  | [] => Ok (data, colormaps)
  | comp :: rest =>
      let new_name := array_name ++ comp ++ units in
      do values <- column array index;
      split_components array array_name units array_cmap rest (S index)
        (dict_set data new_name values)
        (<[new_name := array_cmap]> colormaps)
  end.

(** The loop over the names the arrays had at the start. *)
Fixpoint rename_arrays (array_names : list string)
  (data : list (string * ndarray)) (colormaps : gmap string string)
  : result (list (string * ndarray) * gmap string string) :=
  match array_names with
  | [] => Ok (data, colormaps)
  | array_name :: rest =>
      do array <- dict_get data array_name;
      if (len array =? 0)%nat then
        do popped <- dict_pop data array_name;
        rename_arrays rest (snd popped) colormaps
      else
        let units := get_units array_name in
        let array_cmap :=
          match COLORMAPS !! array_name with
          | Some cmap => cmap
          | None => DEFAULT_COLORMAP
          end in
        do split <-
          (if (last_dim array =? 3)%nat then
             do both <-
               split_components array array_name units array_cmap
                 COMPONENTS_EXT 0 data colormaps;
             Ok (both, array_name ++ MAGNITUDE_EXT ++ units)
           else Ok ((data, colormaps), array_name ++ units));
        let data := fst (fst split) in
        let colormaps := snd (fst split) in
        let new_name := snd split in
        do popped <- dict_pop data array_name;
        rename_arrays rest
          (dict_set (snd popped) new_name (fst popped))
          (<[new_name := array_cmap]> colormaps)
  end.

(** The name of an array without its units and without white space. *)
Definition image_suffix (array_name : string) : string :=
  Re.sub_spaces (Re.sub_units array_name).

(** The loop over the arrays once renamed: each is drawn with its
    colormap and written to the path [get_output_filepath] gives for its
    name. *)
Fixpoint images (filepath : PurePath) (array_names : list string)
  (colormaps : gmap string string) : result (list (PurePath * string)) :=
  match array_names with
  | [] => Ok []
  | array_name :: rest =>
      do cmap <-
        match colormaps !! array_name with
        | Some cmap => Ok cmap
        | None => Raise (KeyError array_name)
        end;
      let array_name := image_suffix array_name in
      let outfilepath :=
        fst (fst (fst (get_output_filepath filepath array_name))) in
      do more <- images filepath rest colormaps;
      Ok ((outfilepath, cmap) :: more)
  end.

(** The images [vtk2image] asks its plotter for, each with its colormap,
    in order. *)
Definition vtk2image_images (cell_data point_data : list (string * ndarray))
  (filepath : PurePath) : io (list (PurePath * string)) :=
  io_bind (load_data cell_data point_data) (fun data =>
  let array_names := map fst data in
  let colormaps : gmap string string := ∅ in
  io_bind ([], rename_arrays array_names data colormaps) (fun renamed =>
  ([], images filepath (map fst (fst renamed)) (snd renamed)))).

End Vtk.

End Constants.
End Lib.

(** ** [ofpost/__main__.py] *)

Module Main.
Import PyStr Pathlib Lib.

Section Driver.
(** The patterns and the paths of [ofpost.options], the component
    matcher of [pathlib], what [path.walk] finds under each path, and
    the bodies of the three decorated readers: each prints its reports
    and returns or raises. *)
Variables VTK_FILE CLOUD_FILE RES_FILE DAT_FILE XY_FILE FORCE_FILE : string.
Variable paths : list PurePath.
Variable fnmatch : bool -> string -> string -> bool.
Variable walk : PurePath -> list (PurePath * list string).
Variable vtk2image_body : PurePath -> list string * result unit.
Variable read_dat_body :
  PurePath -> bool -> bool -> list string * result unit.
Variable read_forces_body : PurePath -> list string * result unit.

Definition reports {A : Type} (m : list string * result A) : io A :=
  (map Report (fst m), snd m).

Definition vtk2image : PurePath -> io (option unit) :=
  read_file_decorator (fun filepath => reports (vtk2image_body filepath)).

Definition read_dat (semilogy append_units : bool)
  : PurePath -> io (option unit) :=
  read_file_decorator
    (fun filepath => reports (read_dat_body filepath semilogy append_units)).

Definition read_forces : PurePath -> io (option unit) :=
  read_file_decorator (fun filepath => reports (read_forces_body filepath)).

(** The body of a [for] loop run on each value a generator yields. *)
Fixpoint for_each {A : Type} (ys : list PurePath)
  (body : PurePath -> io A) : io unit :=
  match ys with
  | [] => io_ret tt
  | y :: rest => io_bind (body y) (fun _ => for_each rest body)
  end.

(** [for file in find_files(...): body(file)]: the generator prints its
    first line when the loop asks for the first value, and its end, a
    return or an exception, comes after the last value it yielded. *)
Definition for_gen {A : Type} (g : generated) (body : PurePath -> io A)
  : io unit :=
  io_bind (first_out g, Ok tt) (fun _ =>
  io_bind (for_each (yields g) body) (fun _ =>
  match the_end g with
  | Finished out => (out, Ok tt)
  | Raised e => ([], Raise e)
  end)).

Definition scan (pattern : string) (path : PurePath)
  (exceptions : list string) : generated :=
  find_files fnmatch pattern path (walk path) exceptions.

(** The body of the loop over [opt.paths]. *)
Definition analyze (path : PurePath) : io unit :=
  io_bind (for_gen (scan VTK_FILE path [CLOUD_FILE]) vtk2image) (fun _ =>
  io_bind (for_gen (scan RES_FILE path []) (read_dat true false)) (fun _ =>
  io_bind (for_gen (scan DAT_FILE path [RES_FILE; FORCE_FILE])
             (read_dat false true)) (fun _ =>
  io_bind (for_gen (scan XY_FILE path []) (read_dat false true)) (fun _ =>
  for_gen (scan FORCE_FILE path []) read_forces)))).

Fixpoint analyze_all (ps : list PurePath) : io unit :=
  match ps with
  | [] => io_ret tt
  | path :: rest => io_bind (analyze path) (fun _ => analyze_all rest)
  end.

(** How the process ends: [sys.exit(code)], or an exception that nothing
    caught. *)
Inductive termination : Type :=
  | Exited (code : Z)
  | Uncaught (e : exn).

(** The program after [opt.parse_options()]. *)
Definition main : list event * termination :=
  match analyze_all paths with
  | (out, Ok _) => (out, Exited 0)
  | (out, Raise e) => (out, Uncaught e)
  end.

(** The files whose processing was started, in the order of the
    output. *)
Fixpoint processed (out : list event) : list PurePath :=
  match out with
  | [] => []
  | Processing f :: rest => f :: processed rest
  | _ :: rest => processed rest
  end.

End Driver.
End Main.

(** ** [live_residuals.py] *)

Module LiveResiduals.
Import PyStr.

(** An entry of a numeric column: [np.nan], or the float a text
    denotes. *)
Inductive cell : Type :=
  | NaN
  | Float (text : string).

(** The rows zipped together: as many columns as the shortest row has
    entries. *)
Definition transpose (rows : list (list string)) : list (list string) :=
  match rows with
  | [] => []
  | r :: rest =>
      let n := fold_left Nat.min (map (@length string) rest) (length r) in
      map (fun i => map (fun row => nth i row EmptyString) rows) (seq 0 n)
  end.

(** [float(value) if value.lower() != 'n/a' else np.nan]. *)
Definition to_cell (value : string) : result cell :=
  if negb (String.eqb (lower value) "n/a") then
    if PyFloat.parses value then Ok (Float value)
    else Raise (ValueError "could not convert string to float")
  else Ok NaN.

Fixpoint to_cells (column : list string) : result (list cell) :=
  match column with
  | [] => Ok []
  | value :: rest =>
      do c <- to_cell value;
      do cs <- to_cells rest;
      Ok (c :: cs)
  end.

Fixpoint to_arrays (columns : list (list string))
  : result (list (list cell)) :=
  match columns with
  | [] => Ok []
  | column :: rest =>
      do a <- to_cells column;
      do r <- to_arrays rest;
      Ok (a :: r)
  end.

Definition is_comment (line : string) : bool := startswith "#" line.

Definition no_header : exn :=
  ValueError "Header con i nomi delle colonne non trovato.".

Definition not_convertible : exn :=
  ValueError "Il file contiene valori non convertibili.".

Definition read_data (content : string)
  : result (list string * list (list cell)) :=
  let lines := file_lines content in
  let header := map strip (List.filter is_comment lines) in
  let data_lines :=
    map split (List.filter (fun line => negb (is_comment line)) lines) in
  do field_names <-
    (if (2 <=? length header)%nat
        && startswith "#" (List.last header EmptyString)
     then Ok (split (remove_char "#" (List.last header EmptyString)))
     else Raise no_header);
  let transposed_data := transpose data_lines in
  do numeric_data <-
    match to_arrays transposed_data with
    | Ok arrays => Ok arrays
    | Raise (ValueError _) => Raise not_convertible
    | Raise e => Raise e
    end;
  Ok (field_names, numeric_data).

(** The first read of the script: [numeric_data[0]] is the time, the
    other columns are the residuals, and the first label is dropped. *)
Definition first_read (content : string)
  : result (list string * list cell * list (list cell)) :=
  do read <- read_data content;
  let field_names := fst read in
  let numeric_data := snd read in
  do time_data <-
    match numeric_data with
    | [] => Raise (IndexError "list index out of range")
    | column :: _ => Ok column
    end;
  let columns := List.tl numeric_data in
  let field_names := List.tl field_names in
  Ok (field_names, time_data, columns).

End LiveResiduals.


(** * Specification vocabulary and sample data *)

Import PyStr Pathlib Lib LiveResiduals Main.

(** ** [read_labels] *)

(** The labels as the specification words them: a label is a word that is
    not a unit, followed by the units that come right after it. *)
Fixpoint labels_from (current : string) (tokens : list string) : list string :=
  match tokens with
  | [] => [current]
  | t :: rest =>
      if Re.match_unit t then labels_from (current ++ " " ++ t) rest
      else current :: labels_from t rest
  end.

Definition labels_of (tokens : list string) : list string :=
  match tokens with
  | [] => []
  | t :: rest => labels_from t rest
  end.

Definition nl : string := String newline EmptyString.

(** ** Paths *)

(** The components of a path hold no separator. *)
Definition plain (x : string) : Prop := contains "/" x = false.

(** ** [get_output_filepath] *)

(** The suffix without the characters that are not allowed in it. *)
Definition sanitized (filesuffix : string) : string :=
  remove_char " " (remove_char "\" (remove_char "/" filesuffix)).

(** The name of the output file as the specification composes it. *)
Definition output_name (EXTENSION base filesuffix timestep : string) : string :=
  base
  ++ (if String.eqb filesuffix "" then "" else "_" ++ sanitized filesuffix)
  ++ (if String.eqb timestep "0" then "" else "_" ++ timestep)
  ++ EXTENSION.

(** ** [get_units] *)

Section UnitsVocabulary.
Variable UNITS_OF_MEASURE : gmap string string.
Variable COMPONENTS_EXT : list string.

Definition bracketed (unit : string) : string := " [" ++ unit ++ "]".

(** The first known suffix of a vector component that the name ends with. *)
Fixpoint component_suffix (comps : list string) (array_name : string)
  : option string :=
  match comps with
  | [] => None
  | comp :: rest =>
      if endswith comp array_name then Some comp
      else component_suffix rest array_name
  end.

(** The resolution as the specification orders it: the exact name, then
    the contents of a group in parentheses, then the name, rewritten or
    not, without its component suffix, and the empty string otherwise. *)
Definition units_of (array_name : string) : string :=
  match UNITS_OF_MEASURE !! array_name with
  | Some unit => bracketed unit
  | None =>
      let rewritten :=
        match Re.search_paren array_name with
        | Some group => group
        | None => array_name
        end in
      match Re.search_paren array_name
              ≫= (fun group => UNITS_OF_MEASURE !! group) with
      | Some unit => bracketed unit
      | None =>
          match component_suffix COMPONENTS_EXT rewritten with
          | Some comp =>
              match UNITS_OF_MEASURE !! removesuffix comp rewritten with
              | Some unit => bracketed unit
              | None => ""
              end
          | None => ""
          end
      end
  end.

End UnitsVocabulary.

Definition sample_units : gmap string string :=
  {[ "U" := "m/s"; "p" := "Pa"; "Time" := "s" ]}.

Definition sample_components : list string := ["_x"; "_y"; "_z"].

(** ** [adjust_camera] *)

(** The extent of the bounding box along an axis, as the code computes
    it, and what the specification says of the axes. *)
Definition extent (mesh : Mesh) (axis : nat) : float :=
  let '(x0, x1, y0, y1, z0, z1) := bounds mesh in
  match axis with
  | 0%nat => PrimFloat.abs (PrimFloat.sub x1 x0)
  | 1%nat => PrimFloat.abs (PrimFloat.sub y1 y0)
  | _ => PrimFloat.abs (PrimFloat.sub z1 z0)
  end.






Definition slice_y : Mesh :=
  {| bounds := (0, 2, 1, 1, 0, 2)%float; center := (1, 1, 1)%float |}.

(** A slice across [z] whose extents along [x] and [y] overflow. *)
Definition wide_slice : Mesh :=
  {| bounds := (-1.7e308, 1.7e308, -1.7e308, 1.7e308, 0, 0)%float;
     center := (0, 0, 0)%float |}.

(** ** [find_files] *)

Section ScannerVocabulary.
Variable fnmatch : bool -> string -> string -> bool.

(** A pattern [pathlib] accepts: it is absolute or has a component. *)
Definition usable (pattern : string) : Prop :=
  is_absolute (Path pattern) = true \/ tail (Path pattern) <> [].

(** The file name [file], alone, matches the pattern without regard to the
    case of letters. *)
Definition matches (file pattern : string) : Prop :=
  path_match fnmatch (Path file) pattern false = Ok true.

Definition wanted (pattern : string) (exceptions : list string)
  (file : string) : Prop :=
  matches file pattern
  /\ forall exc, In exc exceptions -> ~ matches file exc.

(** The names the inner loop keeps, and the exception that stops it: the
    directory plays no part in them. *)
Fixpoint selected (pattern : string) (exceptions : list string)
  (files : list string) : list string * option exn :=
  match files with
  | [] => ([], None)
  | file :: rest =>
      match keep fnmatch pattern exceptions file with
      | Raise e => ([], Some e)
      | Ok false => selected pattern exceptions rest
      | Ok true =>
          let '(names, e) := selected pattern exceptions rest in
          (file :: names, e)
      end
  end.

Definition nonempty {A : Type} (l : list A) : bool :=
  match l with [] => false | _ :: _ => true end.

End ScannerVocabulary.

Definition sample_walk : list (PurePath * list string) :=
  [(Path "case", ["log.txt"]);
   (Path "case/VTK", ["U.VTK"; "cloud.vtk"; "p.dat"])].

(** ** The scanner looks at base names only *)

(** A pattern that is absolute, or that has two components or more. *)
Definition names_a_directory (pattern : string) : Prop :=
  is_absolute (Path pattern) = true
  \/ (2 <= length (tail (Path pattern)))%nat.

(** The names the scan keeps in each directory of a walk, computed from
    the names of the files alone: a scan that raises goes no further. *)
Fixpoint picked (fnmatch : bool -> string -> string -> bool)
  (pattern : string) (exceptions : list string)
  (files_of : list (list string)) : list (list string) :=
  match files_of with
  | [] => []
  | files :: rest =>
      fst (selected fnmatch pattern exceptions files)
      :: match snd (selected fnmatch pattern exceptions files) with
         | Some _ => []
         | None => picked fnmatch pattern exceptions rest
         end
  end.

(** The paths of names kept directory by directory: each name under its
    own directory, in the order of the walk. *)
Definition placed (dirs : list PurePath) (names_of : list (list string))
  : list PurePath :=
  flat_map
    (fun entry =>
       map (fun file => joinpath_path (fst entry) (Path file)) (snd entry))
    (combine dirs names_of).

Definition moved_walk : list (PurePath * list string) :=
  [(Path "/tmp/other", ["log.txt"]);
   (Path "elsewhere", ["U.VTK"; "cloud.vtk"; "p.dat"])].

(** ** [read_data] of the live monitor *)

(** The lines of the file that start with [#]. *)
Definition comment_lines (content : string) : list string :=
  List.filter is_comment (file_lines content).

(** ** The driver and the error boundary of each file *)

(** The files handed to a reader, each with what the body of the reader
    does on it. *)
Definition job : Type := (PurePath * (list string * result unit))%type.

Definition jobs_for (body : PurePath -> list string * result unit)
  (files : list PurePath) : list job :=
  map (fun f => (f, body f)) files.

(** What the readers and their boundary print, the lines of the scanner
    left aside. *)
Fixpoint reader_events (out : list event) : list event :=
  match out with
  | [] => []
  | Looking _ _ :: rest => reader_events rest
  | NotFound _ :: rest => reader_events rest
  | ev :: rest => ev :: reader_events rest
  end.

(** What a file leaves in the output: the line that names it, all that
    its reader printed, and the line of the failure when the reader
    raised. *)
Definition job_events (j : job) : list event :=
  (Processing (fst j) :: map Report (fst (snd j))
   ++ match snd (snd j) with
      | Ok _ => []
      | Raise e => [Unable (name (fst j)) e]
      end)%list.

(** A run that goes through all its jobs: it returns, every file was
    started, in order, every exception of a body left its line, and the
    readers printed, file after file, all that each of them prints on its
    file, those of the files after a failure like the others. *)
Definition isolated (jobs : list job) (m : io unit) : Prop :=
  snd m = Ok tt
  /\ processed (fst m) = map fst jobs
  /\ (forall f lines e,
        In (f, (lines, Raise e)) jobs -> In (Unable (name f) e) (fst m))
  /\ reader_events (fst m) = flat_map job_events jobs.

(** A body that raises nothing but instances of [Exception]. *)
Definition raises_exceptions (body : PurePath -> list string * result unit)
  : Prop :=
  forall f lines e, body f = (lines, Raise e) -> is_Exception e = true.

Section DriverVocabulary.
Variables VTK_FILE CLOUD_FILE RES_FILE DAT_FILE XY_FILE FORCE_FILE : string.
Variable fnmatch : bool -> string -> string -> bool.
Variable walk : PurePath -> list (PurePath * list string).
Variable vtk2image_body : PurePath -> list string * result unit.
Variable read_dat_body : PurePath -> bool -> bool -> list string * result unit.
Variable read_forces_body : PurePath -> list string * result unit.

(** Every file the five scans of a path yield, with what its reader does. *)
Definition jobs_of (path : PurePath) : list job :=
  (jobs_for vtk2image_body
     (yields (scan fnmatch walk VTK_FILE path [CLOUD_FILE]))
   ++ jobs_for (fun f => read_dat_body f true false)
        (yields (scan fnmatch walk RES_FILE path []))
   ++ jobs_for (fun f => read_dat_body f false true)
        (yields (scan fnmatch walk DAT_FILE path [RES_FILE; FORCE_FILE]))
   ++ jobs_for (fun f => read_dat_body f false true)
        (yields (scan fnmatch walk XY_FILE path []))
   ++ jobs_for read_forces_body
        (yields (scan fnmatch walk FORCE_FILE path [])))%list.

End DriverVocabulary.

(** Three files of one directory, the second of which cannot be read. *)
Definition demo_walk (path : PurePath) : list (PurePath * list string) :=
  [(Path "case/postProcessing/probes/0", ["a.dat"; "b.dat"; "c.dat"])].

Definition demo_read_dat (f : PurePath) (semilogy append_units : bool)
  : list string * result unit :=
  if String.eqb (name f) "b.dat" then ([], Raise (ValueError "malformed"))
  else (["plot of " ++ name f], Ok tt).

Definition demo_quiet (f : PurePath) : list string * result unit := ([], Ok tt).

Definition demo_run : list event * termination :=
  main "*.vtk" "cloud*.vtk" "residuals*.dat" "*.dat" "*.xy" "force*.dat"
    [Path "case"] glob demo_walk demo_quiet demo_read_dat demo_quiet.

(** ** The search for [forces(...)] *)

(** One try of the pattern at the start of [s]: the literal prefix, then the
    shortest text up to a closing parenthesis on the same line. *)
Definition attempt (prefix s : string) : option string :=
  match drop_prefix prefix s with
  | Some rest => Re.until ")" rest
  | None => None
  end.

(** [s] holds the prefix after [before], then [group], which has neither a
    closing parenthesis nor a newline, then a closing parenthesis. *)
Definition token (prefix s before group : string) : Prop :=
  exists rest,
    s = before ++ prefix ++ group ++ String ")" rest
    /\ contains ")" group = false
    /\ contains newline group = false.

(** The token of [s] that starts first. *)
Definition leftmost (prefix s group : string) : Prop :=
  exists before,
    token prefix s before group
    /\ forall before' group',
         token prefix s before' group' ->
         (String.length before <= String.length before')%nat.

(** ** [read_forces] *)

Arguments nrows {num} _.
Arguments columns {num} _.
Arguments ncols {num} _.
Arguments iloc_col {num} _ _.
Arguments iloc_cols {num} _ _.
Arguments set_column {num} _ _ _.

Section ForcesVocabulary.
Variable num : Type.
Variable zero : num.
Variable add : num -> num -> num.

(** The number of the table at row [r] of column [i]. *)
Definition cell (data : DataFrame num) (r i : nat) : num :=
  nth r (snd (nth i (columns data) (EmptyString, []))) zero.

(** The sum of [f k] over the contributions [k] below [n], in order. *)
Fixpoint sum_over (n : nat) (f : nat -> num) : num :=
  match n with
  | O => zero
  | S k => add (sum_over k f) (f k)
  end.

(** The summed column of the component [a] of the block that starts at
    column [base]: row by row, the sum over [k] of column
    [base + a + 3 k]. *)
Definition summed (data : DataFrame num) (base a n : nat) : list num :=
  map (fun r => sum_over n (fun k => cell data r (base + a + 3 * k)%nat))
      (seq 0 (nrows data)).

(** The table of a block: the time and the three summed columns. *)
Definition block (data : DataFrame num) (time : list num) (label : string)
  (cx cy cz : string) (base n : nat) : list (string * list num) :=
  [("Time", time);
   (label ++ cx, summed data base 0 n);
   (label ++ cy, summed data base 1 n);
   (label ++ cz, summed data base 2 n)].

End ForcesVocabulary.

(** A report of two contributions, with one row of numbers. *)
Definition demo_report : string :=
  "# Time forces(pressure viscous) moment(pressure viscous)" ++ nl
  ++ "0 ((1 2 3) (4 5 6)) ((7 8 9) (10 11 12))" ++ nl.

Definition demo_table : DataFrame Z :=
  {| nrows := 1;
     columns :=
       map (fun v => ("column", [v]))
         [0; 1; 2; 3; 4; 5; 6; 7; 8; 9; 10; 11; 12]%Z |}.

Definition demo_plot (df : list (string * list Z)) (filepath : PurePath)
  (filesuffix : string) : io unit :=
  ([Report filesuffix], Ok tt).

Definition demo_components : list string := ["x"; "y"; "z"].

(** ** More on [find_files] *)

(** Some directory of the walk holds a file. *)
Definition has_files (walk : list (PurePath * list string)) : bool :=
  existsb (fun entry => nonempty (snd entry)) walk.

(** A name as a directory gives it: one proper component. *)
Definition valid_name (file : string) : Prop :=
  plain file /\ is_part file = true.

Definition valid_walk (walk : list (PurePath * list string)) : Prop :=
  Forall (fun entry => Forall valid_name (snd entry)) walk.

(** ** More on [read_data] *)

(** The rows of a residual file: the words of each line that does not
    start with [#]. *)
Definition data_rows (content : string) : list (list string) :=
  map split
    (List.filter (fun line => negb (is_comment line)) (file_lines content)).

(** A word that stands for a number, and the number it stands for. *)
Definition convertible (value : string) : bool :=
  String.eqb (lower value) "n/a" || PyFloat.parses value.

Definition cell_of (value : string) : LiveResiduals.cell :=
  if String.eqb (lower value) "n/a" then NaN else Float value.

(** The labels of the last line that starts with [#]. *)
Definition header_names (content : string) : list string :=
  split (remove_char "#" (strip (List.last (comment_lines content) ""))).

(** ** More on [read_forces] *)

(** The table of a report that announces two contributions and holds the
    numbers of one and a half. *)
Definition demo_short_table : DataFrame Z :=
  {| nrows := 1;
     columns :=
       map (fun v => ("column", [v])) [0; 1; 2; 3; 4; 5; 6; 7; 8; 9]%Z |}.

(** ** The driver and an interruption *)

(** The files that are started, and how the run ends, when the readers do
    to each file what [jobs] says: the run goes on after an instance of
    [Exception] and ends at anything else a reader raises. *)
Fixpoint until_interrupt (jobs : list job) : list PurePath * result unit :=
  match jobs with
  | [] => ([], Ok tt)
  | (f, (_, r)) :: rest =>
      let go_on :=
        (f :: fst (until_interrupt rest), snd (until_interrupt rest)) in
      match r with
      | Ok _ => go_on
      | Raise e => if is_Exception e then go_on else ([f], Raise e)
      end
  end.

(** A run that does so. *)
Definition stops {A : Type} (jobs : list job) (m : io A) : Prop :=
  processed (fst m) = fst (until_interrupt jobs)
  /\ match snd (until_interrupt jobs) with
     | Ok _ => is_Ok (snd m) = true
     | Raise e => snd m = Raise e
     end.

(** A reader that is interrupted on the second of three files. *)
Definition demo_interrupted (f : PurePath) (semilogy append_units : bool)
  : list string * result unit :=
  if String.eqb (name f) "b.dat" then ([], Raise KeyboardInterrupt)
  else (["plot of " ++ name f], Ok tt).

(** ** The arrays of [vtk2image] *)

Arguments Array1 {scalar} _.
Arguments Array2 {scalar} _ _.
Arguments len {scalar} _.
Arguments last_dim {scalar} _.
Arguments column {scalar} _ _.




(** A text without white space. *)
Fixpoint spaceless (s : string) : bool :=
  match s with
  | EmptyString => true
  | String c s' => negb (is_space c) && spaceless s'
  end.

(** Two arrays of a mesh of four cells, a scalar and a vector. *)
Definition demo_arrays : list (string * ndarray Z) :=
  [("p", Array1 [1; 2; 3; 4]%Z);
   ("U", Array2 4 [[1; 2; 3; 4]; [5; 6; 7; 8]; [9; 10; 11; 12]]%Z)].

Definition demo_units : gmap string string :=
  <["p" := "Pa"]> (<["U" := "m/s"]> ∅).


(** * Properties *)

(** ** Lists and strings *)

Lemma last_snoc {A : Type} (l : list A) (x d : A) :
  List.last (l ++ [x])%list d = x.
Proof.
  induction l as [|a l IH]; [reflexivity|].
  destruct l; [reflexivity|]. exact IH.
Qed.

Lemma removelast_snoc {A : Type} (l : list A) (x : A) :
  removelast (l ++ [x])%list = l.
Proof.
  induction l as [|a l IH]; [reflexivity|].
  destruct l as [|b l]; [reflexivity|].
  change (a :: removelast ((b :: l) ++ [x])%list = a :: b :: l).
  now rewrite IH.
Qed.

Lemma snoc_removelast_last {A : Type} (l : list A) (d : A) :
  l <> [] -> (removelast l ++ [List.last l d])%list = l.
Proof.
  intros Hl. symmetry. now apply app_removelast_last.
Qed.

(** ** [read_labels] *)

Lemma merge_labels_from (tokens : list string) :
  forall (done : list string) (current : string),
    merge_labels tokens (done ++ [current])%list
    = Ok (done ++ labels_from current tokens)%list.
Proof.
  induction tokens as [|t rest IH]; intros done current; simpl.
  - reflexivity.
  - destruct (Re.match_unit t) eqn:Hu; simpl.
    + destruct (done ++ [current])%list as [|x l] eqn:Hd.
      { now destruct done. }
      rewrite <- Hd, last_snoc, removelast_snoc. apply IH.
    + rewrite IH, <- app_assoc. reflexivity.
Qed.

(** When the label line does not begin with a unit, the loop of
    [read_labels] returns the labels of the specification. *)
Lemma merge_labels_spec (tokens : list string) :
  (forall t rest, tokens = t :: rest -> Re.match_unit t = false) ->
  merge_labels tokens [] = Ok (labels_of tokens).
Proof.
  destruct tokens as [|t rest]; intros H; [reflexivity|].
  simpl. rewrite (H t rest eq_refl). simpl.
  apply (merge_labels_from rest [] t).
Qed.

Lemma read_labels_spec (content line : string) :
  last_comment (file_lines content) None = Some line ->
  (forall t rest, label_tokens line = t :: rest -> Re.match_unit t = false) ->
  read_labels content = Ok (labels_of (label_tokens line)).
Proof.
  intros Hl Ht. unfold read_labels. rewrite Hl.
  now apply merge_labels_spec.
Qed.

(** A file without a leading comment line has no labels. *)
Lemma read_labels_no_comment (content : string) :
  last_comment (file_lines content) None = None ->
  read_labels content = Ok [].
Proof.
  intros Hl. unfold read_labels. now rewrite Hl.
Qed.

(** The example of the specification. *)
Lemma read_labels_example :
  read_labels ("#A #B" ++ nl ++ "# col1 col2 [unit2]" ++ nl ++ "1 2" ++ nl)
  = Ok ["col1"; "col2 [unit2]"].
Proof. reflexivity. Qed.

(** C3 (the code departs from the claim): on a file whose label line is
    [# [m] x], [read_labels] does not return a list of labels in which the
    unit went to the label before it: there is no such label, and the
    function raises [IndexError]. *)
Theorem read_labels_raises_on_leading_unit :
  read_labels ("# [m] x" ++ nl ++ "0 1" ++ nl)
  = Raise (IndexError "list index out of range").
Proof. reflexivity. Qed.

(** C8: whenever the first word of the last leading comment line, after the
    [#], matches the pattern of a unit, [read_labels] raises [IndexError]:
    the list of labels is still empty when the unit is to be appended to its
    last element. *)
Theorem read_labels_index_error (content line token : string)
  (others : list string) :
  last_comment (file_lines content) None = Some line ->
  label_tokens line = token :: others ->
  Re.match_unit token = true ->
  read_labels content = Raise (IndexError "list index out of range").
Proof.
  intros Hl Ht Hu. unfold read_labels. rewrite Hl, Ht. simpl.
  now rewrite Hu.
Qed.

Lemma read_labels_index_error_witness :
  read_labels ("# Comment" ++ nl ++ "#[-] Time" ++ nl ++ "0 1" ++ nl)
  = Raise (IndexError "list index out of range").
Proof.
  apply (read_labels_index_error _ ("#[-] Time" ++ nl) "[-]" ["Time"]);
    reflexivity.
Defined.

(** ** Characters of a string *)

Lemma append_cons (a : ascii) (s t : string) :
  String a s ++ t = String a (s ++ t).
Proof. reflexivity. Qed.

Lemma contains_app (c : ascii) (s t : string) :
  contains c (s ++ t) = contains c s || contains c t.
Proof.
  induction s as [|a s IH]; [reflexivity|].
  rewrite append_cons. simpl. rewrite IH. now rewrite orb_assoc.
Qed.

Lemma contains_substring_prefix (c : ascii) (n : nat) (s : string) :
  contains c s = false -> contains c (String.substring 0 n s) = false.
Proof.
  revert s. induction n as [|n IH]; intros [|a s]; simpl; try reflexivity.
  intros H. apply orb_false_iff in H as [Ha Hs].
  rewrite Ha. simpl. now apply IH.
Qed.

Lemma contains_remove_char (c : ascii) (s : string) :
  contains c (remove_char c s) = false.
Proof.
  induction s as [|a s IH]; simpl; [reflexivity|].
  destruct (Ascii.eqb a c) eqn:E; simpl; [exact IH|].
  now rewrite E.
Qed.

Lemma contains_remove_other (c d : ascii) (s : string) :
  contains c s = false -> contains c (remove_char d s) = false.
Proof.
  induction s as [|a s IH]; simpl; [reflexivity|].
  intros H. apply orb_false_iff in H as [Ha Hs].
  destruct (Ascii.eqb a d); simpl; [now apply IH|].
  rewrite Ha. now apply IH.
Qed.

Lemma startswith_char_contains (c : ascii) (s : string) :
  contains c s = false -> startswith (String c EmptyString) s = false.
Proof.
  destruct s as [|a s]; simpl; [reflexivity|].
  intros H. apply orb_false_iff in H as [Ha _].
  rewrite Ascii.eqb_sym. now rewrite Ha.
Qed.

Lemma append_empty_r (s : string) : s ++ "" = s.
Proof.
  induction s as [|a s IH]; [reflexivity|].
  now rewrite append_cons, IH.
Qed.

Lemma append_assoc (s t u : string) : (s ++ t) ++ u = s ++ (t ++ u).
Proof.
  induction s as [|a s IH]; [reflexivity|].
  now rewrite !append_cons, IH.
Qed.

(** ** Splitting at a separator *)

Lemma split_on_go_no_sep (sep : ascii) (s cur : string) :
  contains sep s = false -> split_on_go sep cur s = [cur ++ s].
Proof.
  revert cur. induction s as [|a s IH]; intros cur; simpl.
  - now rewrite append_empty_r.
  - intros H. apply orb_false_iff in H as [Ha Hs]. rewrite Ha.
    rewrite IH by exact Hs. now rewrite append_assoc.
Qed.

Lemma split_on_no_sep (sep : ascii) (s : string) :
  contains sep s = false -> split_on sep s = [s].
Proof. intros H. unfold split_on. now rewrite split_on_go_no_sep. Qed.

Lemma split_on_go_pieces (sep : ascii) (s cur : string) :
  contains sep cur = false ->
  Forall (fun x => contains sep x = false) (split_on_go sep cur s).
Proof.
  revert cur. induction s as [|a s IH]; intros cur Hc; simpl.
  - now constructor.
  - destruct (Ascii.eqb a sep) eqn:E.
    + constructor; [exact Hc|]. now apply IH.
    + apply IH. rewrite contains_app, Hc. simpl. now rewrite E.
Qed.

(** ** Paths *)

Lemma Forall_list_filter {A : Type} (P : A -> Prop) (f : A -> bool)
  (l : list A) : Forall P l -> Forall P (List.filter f l).
Proof.
  induction 1 as [|x l Hx Hl IH]; simpl; [constructor|].
  destruct (f x); [now constructor|exact IH].
Qed.

Lemma Path_plain (s : string) : Forall plain (tail (Path s)).
Proof.
  unfold Path; simpl. apply Forall_list_filter.
  now apply split_on_go_pieces.
Qed.

Lemma Forall_removelast {A : Type} (P : A -> Prop) (l : list A) :
  Forall P l -> Forall P (removelast l).
Proof.
  induction 1 as [|x l Hx Hl IH]; [constructor|].
  destruct l; [constructor|]. simpl. constructor; [exact Hx|exact IH].
Qed.

Lemma Forall_last {A : Type} (P : A -> Prop) (l : list A) (d : A) :
  P d -> Forall P l -> P (List.last l d).
Proof.
  intros Hd. induction 1 as [|x l Hx Hl IH]; [exact Hd|].
  destruct l; [exact Hx|exact IH].
Qed.

Lemma parent_plain (p : PurePath) :
  Forall plain (tail p) -> Forall plain (tail (parent p)).
Proof. apply Forall_removelast. Qed.

Lemma name_plain (p : PurePath) : Forall plain (tail p) -> plain (name p).
Proof.
  intros H. unfold name.
  apply (Forall_last plain (tail p) ""); [reflexivity|exact H].
Qed.

Lemma stem_plain (p : PurePath) : Forall plain (tail p) -> plain (stem p).
Proof.
  intros H. apply name_plain in H. unfold stem.
  destruct (rfind "." (name p)) as [i|]; [|exact H].
  destruct ((0 <? i) && (i <? String.length (name p) - 1))%nat; [|exact H].
  now apply contains_substring_prefix.
Qed.

(** Joining a path with one proper component adds that component. *)
Lemma joinpath_component (p : PurePath) (x : string) :
  plain x -> is_part x = true ->
  joinpath p x = {| root := root p; tail := (tail p ++ [x])%list |}.
Proof.
  intros Hx Hp. unfold joinpath.
  rewrite (startswith_char_contains "/" x Hx).
  unfold Path; simpl. rewrite split_on_no_sep by exact Hx.
  simpl. now rewrite Hp.
Qed.

Lemma parent_joinpath_component (p : PurePath) (x : string) :
  plain x -> is_part x = true ->
  parent (joinpath p x) = p /\ name (joinpath p x) = x.
Proof.
  intros Hx Hp. rewrite joinpath_component by assumption.
  unfold parent, name; simpl. rewrite removelast_snoc, last_snoc.
  split; [now destruct p|reflexivity].
Qed.

Lemma is_part_append (a e : string) :
  is_part e = true -> is_part (a ++ e) = true.
Proof.
  intros He. destruct a as [|c a]; [exact He|].
  rewrite append_cons. unfold is_part. simpl.
  destruct (a ++ e) as [|d r] eqn:E.
  - destruct a; [|discriminate E]. change (e = "") in E. now subst e.
  - destruct (Ascii.eqb c "."); reflexivity.
Qed.

(** ** [get_output_filepath] *)

Lemma sanitized_clean (filesuffix : string) :
  contains "/" (sanitized filesuffix) = false
  /\ contains "\" (sanitized filesuffix) = false
  /\ contains " " (sanitized filesuffix) = false.
Proof.
  unfold sanitized. repeat split.
  - do 2 apply contains_remove_other. apply contains_remove_char.
  - apply contains_remove_other. apply contains_remove_char.
  - apply contains_remove_char.
Qed.

Lemma output_name_plain (EXTENSION base filesuffix timestep : string) :
  plain EXTENSION -> plain base -> plain timestep ->
  plain (output_name EXTENSION base filesuffix timestep).
Proof.
  intros He Hb Ht. unfold plain, output_name in *.
  rewrite !contains_app, Hb, He.
  destruct (String.eqb filesuffix ""), (String.eqb timestep "0");
    rewrite ?contains_app, ?Ht, ?(proj1 (sanitized_clean filesuffix));
    reflexivity.
Qed.

Lemma get_output_filepath_eq (EXTENSION filesuffix : string)
  (filepath : PurePath) :
  let dir := name (parent filepath) in
  let timestep := if PyFloat.parses dir then dir else "0" in
  get_output_filepath EXTENSION filepath filesuffix
  = (joinpath (parent (parent filepath))
       (output_name EXTENSION (stem filepath) filesuffix timestep),
     stem filepath, timestep, name (parent (parent filepath))).
Proof.
  unfold get_output_filepath, output_name, sanitized. cbv zeta.
  destruct (String.eqb filesuffix "");
    destruct (String.eqb (if PyFloat.parses (name (parent filepath))
                          then name (parent filepath) else "0") "0");
    cbv [negb]; rewrite ?append_assoc; reflexivity.
Qed.

(** C2: the timestep is the name of the parent directory when [float]
    accepts it and ["0"] otherwise; the output file is named after the stem,
    then [_] and the suffix without [/], [\] and spaces when a suffix that
    is not empty is given, then [_] and the timestep exactly when the
    timestep is not ["0"], then the extension; and it lies in the
    grandparent directory. *)
Theorem get_output_filepath_spec (EXTENSION s filesuffix : string) :
  plain EXTENSION -> is_part EXTENSION = true ->
  let filepath := Path s in
  let dir := name (parent filepath) in
  let '(outfilepath, filename, timestep, outdirname) :=
    get_output_filepath EXTENSION filepath filesuffix in
  timestep = (if PyFloat.parses dir then dir else "0")
  /\ filename = stem filepath
  /\ name outfilepath = output_name EXTENSION filename filesuffix timestep
  /\ parent outfilepath = parent (parent filepath)
  /\ outdirname = name (parent (parent filepath))
  /\ (contains "/" (sanitized filesuffix) = false
      /\ contains "\" (sanitized filesuffix) = false
      /\ contains " " (sanitized filesuffix) = false).
Proof.
  intros He Hp filepath dir.
  rewrite (get_output_filepath_eq EXTENSION filesuffix filepath). cbv zeta.
  fold dir. set (timestep := if PyFloat.parses dir then dir else "0").
  assert (Hplain : plain (output_name EXTENSION (stem filepath) filesuffix
                            timestep)).
  { apply output_name_plain; [exact He| |].
    - apply stem_plain, Path_plain.
    - unfold timestep. destruct (PyFloat.parses dir); [|reflexivity].
      apply name_plain, parent_plain, Path_plain. }
  assert (Hpart : is_part (output_name EXTENSION (stem filepath) filesuffix
                             timestep) = true).
  { unfold output_name. rewrite <- !append_assoc. now apply is_part_append. }
  destruct (parent_joinpath_component (parent (parent filepath)) _ Hplain Hpart)
    as [Hparent Hname].
  repeat split; try assumption; apply sanitized_clean.
Qed.

Lemma get_output_filepath_spec_witness :
  let '(outfilepath, filename, timestep, outdirname) :=
    get_output_filepath ".png" (Path "root/case/kind/3.5/field.vtk") "" in
  timestep = "3.5"
  /\ filename = "field"
  /\ name outfilepath = "field_3.5.png"
  /\ parent outfilepath = Path "root/case/kind"
  /\ outdirname = "kind"
  /\ (contains "/" "" = false /\ contains "\" "" = false
      /\ contains " " "" = false).
Proof.
  exact (get_output_filepath_spec ".png" "root/case/kind/3.5/field.vtk" ""
           eq_refl eq_refl).
Defined.

(** The second example of the specification: a directory whose name is not
    a number. *)
Lemma get_output_filepath_badname :
  get_output_filepath ".png" (Path "root/case/kind/badname/field.vtk") ""
  = (Path "root/case/kind/field.png", "field", "0", "kind").
Proof. reflexivity. Qed.

(** ** [get_units] *)

Section Units.
Variable UNITS_OF_MEASURE : gmap string string.
Variable COMPONENTS_EXT : list string.


Lemma strip_component_suffix (comps : list string) (array_name : string) :
  strip_component comps array_name
  = match component_suffix comps array_name with
    | Some comp => removesuffix comp array_name
    | None => array_name
    end.
Proof.
  induction comps as [|comp rest IH]; simpl; [reflexivity|].
  destruct (endswith comp array_name); [reflexivity|exact IH].
Qed.

Lemma lookup_units_eq (array_name : string) :
  lookup_units UNITS_OF_MEASURE array_name
  = match UNITS_OF_MEASURE !! array_name with
    | Some unit => Ok (bracketed unit)
    | None => Raise (KeyError array_name)
    end.
Proof. reflexivity. Qed.

Lemma get_units_units_of (array_name : string) :
  get_units UNITS_OF_MEASURE COMPONENTS_EXT array_name
  = units_of UNITS_OF_MEASURE COMPONENTS_EXT array_name.
Proof.
  unfold get_units, units_of. rewrite !lookup_units_eq.
  destruct (UNITS_OF_MEASURE !! array_name) as [unit|] eqn:H1; [reflexivity|].
  destruct (Re.search_paren array_name) as [group|] eqn:Hg; simpl.
  - rewrite lookup_units_eq.
    destruct (UNITS_OF_MEASURE !! group) as [unit|] eqn:H2; [reflexivity|].
    rewrite strip_component_suffix, lookup_units_eq.
    destruct (component_suffix COMPONENTS_EXT group) as [comp|].
    + now destruct (UNITS_OF_MEASURE !! removesuffix comp group).
    + now rewrite H2.
  - rewrite strip_component_suffix, lookup_units_eq.
    destruct (component_suffix COMPONENTS_EXT array_name) as [comp|].
    + now destruct (UNITS_OF_MEASURE !! removesuffix comp array_name).
    + now rewrite H1.
Qed.

Lemma units_of_form (array_name : string) :
  units_of UNITS_OF_MEASURE COMPONENTS_EXT array_name = ""
  \/ exists key unit,
       UNITS_OF_MEASURE !! key = Some unit
       /\ units_of UNITS_OF_MEASURE COMPONENTS_EXT array_name = bracketed unit.
Proof.
  unfold units_of.
  destruct (UNITS_OF_MEASURE !! array_name) as [unit|] eqn:H1;
    [right; eauto|].
  destruct (Re.search_paren array_name) as [group|]; simpl.
  - destruct (UNITS_OF_MEASURE !! group) as [unit|] eqn:H2; [right; eauto|].
    destruct (component_suffix COMPONENTS_EXT group) as [comp|]; [|now left].
    destruct (UNITS_OF_MEASURE !! removesuffix comp group) as [unit|] eqn:H3;
      [right; eauto|now left].
  - destruct (component_suffix COMPONENTS_EXT array_name) as [comp|];
      [|now left].
    destruct (UNITS_OF_MEASURE !! removesuffix comp array_name)
      as [unit|] eqn:H3; [right; eauto|now left].
Qed.

(** C5: [get_units] resolves a name in the order of the specification, and
    a result that is not empty is a unit of the table between [" ["] and
    ["]"]. *)
Theorem get_units_spec (array_name : string) :
  get_units UNITS_OF_MEASURE COMPONENTS_EXT array_name
  = units_of UNITS_OF_MEASURE COMPONENTS_EXT array_name
  /\ (get_units UNITS_OF_MEASURE COMPONENTS_EXT array_name <> "" ->
      exists key unit,
        UNITS_OF_MEASURE !! key = Some unit
        /\ get_units UNITS_OF_MEASURE COMPONENTS_EXT array_name
           = " [" ++ unit ++ "]").
Proof.
  split; [apply get_units_units_of|].
  rewrite get_units_units_of. intros Hne.
  destruct (units_of_form array_name) as [H|H]; [contradiction|exact H].
Qed.

End Units.

Lemma get_units_spec_witness :
  get_units sample_units sample_components "mag(U_y)" = " [m/s]"
  /\ exists key unit,
       sample_units !! key = Some unit
       /\ get_units sample_units sample_components "mag(U_y)"
          = " [" ++ unit ++ "]".
Proof.
  destruct (get_units_spec sample_units sample_components "mag(U_y)")
    as [_ H].
  split; [reflexivity|]. apply H. discriminate.
Defined.

(** A compound name that is not in the table goes through the two
    rewritings before the empty string is returned. *)
Lemma get_units_unknown :
  get_units sample_units sample_components "k_x" = ""
  /\ get_units sample_units sample_components "U_x" = " [m/s]"
  /\ get_units sample_units sample_components "U" = " [m/s]".
Proof. repeat split; reflexivity. Qed.

(** ** [adjust_camera] *)

(** *** The comparisons of doubles *)





Lemma float_eqb_refl (x : float) :
  PrimFloat.is_nan x = false -> PrimFloat.eqb x x = true.
Proof. unfold PrimFloat.is_nan. now rewrite negb_false_iff. Qed.





(** The threshold is the double the literal [1e-16] denotes, which lies
    below the number 1e-16. *)
Lemma threshold_value :
  Prim2SF threshold = S754_finite false 8112963841460668 (-106)
  /\ (8112963841460668 * 10 ^ 16 < 2 ^ 106)%Z.
Proof. split; [vm_compute; reflexivity|reflexivity]. Qed.

Ltac axes v :=
  destruct v as [|[|[|v]]]; try lia; try congruence.






(** With the extents of [x] and [z] equal, the later axis is taken and the
    up direction points down the [z] axis; a box with no flat axis, or with
    two, leaves the camera to its reset, and so does an extent that is
    just the threshold; extents that differ before the subtraction rounds
    them count as equal. *)
Lemma adjust_camera_examples :
  adjust_camera 2 slice_y
  = Ok [SetCameraPosition [1; 2; 1]%float [1; 1; 1]%float [0; 0; -1]%float;
        ResetCamera; ZoomCamera 2]
  /\ adjust_camera 2
       {| bounds := (0, 1, 0, 1, 0, 1)%float; center := (0, 0, 0)%float |}
     = Ok [ResetCamera]
  /\ adjust_camera 2
       {| bounds := (0, 0, 1, 1, 0, 1)%float; center := (0, 0, 0)%float |}
     = Ok [ResetCamera]
  /\ adjust_camera 2
       {| bounds := (0, threshold, 0, 1, 0, 1)%float;
          center := (0, 0, 0)%float |}
     = Ok [ResetCamera]
  /\ adjust_camera 2
       {| bounds := (0, 1, -0x1p-60, 1, 0, 0)%float;
          center := (0, 0, 0)%float |}
     = Ok [SetCameraPosition [0; 0; 1]%float [0; 0; 0]%float [0; 1; 0]%float;
           ResetCamera; ZoomCamera 2].
Proof. repeat split; vm_compute; reflexivity. Qed.

(** ** [find_files] *)

Section Scanner.
Variable fnmatch : bool -> string -> string -> bool.


Lemma path_match_usable (p : PurePath) (pattern : string) (cs : bool) :
  usable pattern -> exists b, path_match fnmatch p pattern cs = Ok b.
Proof.
  intros [Ha|Ht]; unfold path_match.
  - rewrite Ha. eauto.
  - destruct (is_absolute (Path pattern)); [eauto|].
    destruct (tail (Path pattern)); [contradiction|eauto].
Qed.

Lemma path_match_unusable (p : PurePath) (pattern : string) (cs : bool) :
  ~ usable pattern ->
  path_match fnmatch p pattern cs = Raise (ValueError "empty pattern").
Proof.
  intros H. unfold path_match, usable in *.
  destruct (is_absolute (Path pattern)); [exfalso; apply H; now left|].
  destruct (tail (Path pattern)); [reflexivity|].
  exfalso. apply H. now right.
Qed.

Lemma match_all_usable (file : PurePath) (exceptions : list string) :
  Forall usable exceptions ->
  exists bs,
    match_all fnmatch file exceptions = Ok bs
    /\ (any bs = true <->
        exists exc, In exc exceptions
                    /\ path_match fnmatch file exc false = Ok true).
Proof.
  induction 1 as [|exc rest Hu Hrest IH]; simpl.
  - exists []. split; [reflexivity|]. simpl. split; [discriminate|].
    now intros (exc & [] & _).
  - destruct (path_match_usable file exc false Hu) as [b Hb].
    destruct IH as (bs & Hbs & Hany). rewrite Hb, Hbs. simpl.
    exists (b :: bs). split; [reflexivity|]. simpl.
    rewrite orb_true_iff, Hany. split.
    + intros [->|(e & He & Hm)]; [exists exc; auto|exists e; auto].
    + intros (e & [<-|He] & Hm); [left; congruence|right; eauto].
Qed.

Lemma keep_usable (pattern : string) (exceptions : list string)
  (file : string) :
  usable pattern -> Forall usable exceptions ->
  exists b, keep fnmatch pattern exceptions file = Ok b
            /\ (b = true <-> wanted fnmatch pattern exceptions file).
Proof.
  intros Hp He. unfold keep, wanted, matches.
  destruct (path_match_usable (Path file) pattern false Hp) as [m Hm].
  rewrite Hm. simpl. destruct m; simpl.
  - destruct (match_all_usable (Path file) exceptions He)
      as (bs & Hbs & Hany).
    rewrite Hbs. simpl. destruct (any bs) eqn:E.
    + exists false. split; [reflexivity|]. split; [discriminate|].
      intros [_ Hnone]. destruct (proj1 Hany eq_refl) as (exc & Hin & Hex).
      now destruct (Hnone exc Hin).
    + exists true. split; [reflexivity|]. split; [|reflexivity].
      intros _. split; [reflexivity|]. intros exc Hin Hex.
      assert (false = true) by (apply Hany; eauto). discriminate.
  - exists false. split; [reflexivity|]. split; [discriminate|].
    intros [H _]. discriminate H.
Qed.

Lemma find_in_files_selected (pattern : string) (exceptions : list string)
  (dir : PurePath) (files : list string) :
  forall is_found,
    find_in_files fnmatch pattern exceptions dir files is_found
    = (map (fun file => joinpath_path dir (Path file))
         (fst (selected fnmatch pattern exceptions files)),
       is_found || nonempty (fst (selected fnmatch pattern exceptions files)),
       snd (selected fnmatch pattern exceptions files)).
Proof.
  induction files as [|file rest IH]; intros is_found; simpl.
  - now rewrite orb_false_r.
  - destruct (keep fnmatch pattern exceptions file) as [[|]|e]; simpl.
    + rewrite IH.
      destruct (selected fnmatch pattern exceptions rest) as [names e].
      simpl. now rewrite orb_true_r.
    + apply IH.
    + now rewrite orb_false_r.
Qed.

Lemma selected_usable (pattern : string) (exceptions : list string)
  (files : list string) :
  usable pattern -> Forall usable exceptions ->
  snd (selected fnmatch pattern exceptions files) = None
  /\ forall file, In file (fst (selected fnmatch pattern exceptions files))
                  <-> In file files /\ wanted fnmatch pattern exceptions file.
Proof.
  intros Hp He. induction files as [|f rest [IHe IHin]]; simpl.
  - split; [reflexivity|]. intros file. simpl. tauto.
  - destruct (keep_usable pattern exceptions f Hp He) as (b & Hb & Hw).
    rewrite Hb. destruct b.
    + destruct (selected fnmatch pattern exceptions rest) as [names e].
      simpl in *.
      split; [exact IHe|]. intros file. rewrite IHin. split.
      * intros [<-|[Hin Hwant]]; [split; [now left|now apply Hw]|].
        split; [now right|exact Hwant].
      * intros [[<-|Hin] Hwant]; [now left|right; now split].
    + split; [exact IHe|]. intros file. rewrite IHin. split.
      * intros [Hin Hwant]. split; [now right|exact Hwant].
      * intros [[<-|Hin] Hwant]; [|now split].
        apply Hw in Hwant. discriminate Hwant.
Qed.

Lemma find_in_walk_usable (pattern : string) (exceptions : list string)
  (walk : list (PurePath * list string)) :
  usable pattern -> Forall usable exceptions ->
  forall is_found,
    let '(ys, found, e) :=
      find_in_walk fnmatch pattern exceptions walk is_found in
    e = None
    /\ found = is_found || nonempty ys
    /\ forall p, In p ys <->
         exists dir files file,
           In (dir, files) walk /\ In file files
           /\ p = joinpath_path dir (Path file)
           /\ wanted fnmatch pattern exceptions file.
Proof.
  intros Hp He. induction walk as [|[dir files] rest IH]; intros is_found.
  - simpl. split; [reflexivity|]. split; [now rewrite orb_false_r|].
    intros p. split; [intros []|]. now intros (d & fs & f & [] & _).
  - simpl. rewrite find_in_files_selected.
    destruct (selected_usable pattern exceptions files Hp He) as [Hnone Hin].
    rewrite Hnone.
    specialize (IH (is_found
                    || nonempty
                         (fst (selected fnmatch pattern exceptions files)))).
    destruct (find_in_walk fnmatch pattern exceptions rest _)
      as [[ys found] e].
    destruct IH as (-> & -> & IHin).
    split; [reflexivity|]. split.
    { destruct (fst (selected fnmatch pattern exceptions files)), is_found, ys;
        reflexivity. }
    intros p. rewrite in_app_iff, in_map_iff, IHin. split.
    + intros [(f & <- & Hf)|(d & fs & f & Hw & Hf & -> & Hwant)].
      * apply Hin in Hf as [Hf Hwant]. exists dir, files, f.
        repeat split; [now left|exact Hf|apply Hwant|apply Hwant].
      * exists d, fs, f. repeat split; [now right|exact Hf|apply Hwant
                                       |apply Hwant].
    + intros (d & fs & f & [Heq|Hw] & Hf & -> & Hwant).
      * inversion Heq; subst d fs. left. exists f. split; [reflexivity|].
        apply Hin. now split.
      * right. exists d, fs, f.
        split; [exact Hw|split; [exact Hf|split; [reflexivity|exact Hwant]]].
Qed.

End Scanner.

(** C4 (amended): for a pattern and exclusions that [pathlib] accepts (none
    of them empty), a path is yielded if and only if it is a file of the
    walk whose name matches the pattern, without regard to case, and matches
    none of the exclusions; the generator then ends without an error, and
    with the message that nothing was found exactly when it yielded
    nothing. *)
Theorem find_files_spec (fnmatch : bool -> string -> string -> bool)
  (pattern : string) (path : PurePath)
  (walk : list (PurePath * list string)) (exceptions : list string) :
  usable pattern -> Forall usable exceptions ->
  let g := find_files fnmatch pattern path walk exceptions in
  (forall p, In p (yields g) <->
     exists dir files file,
       In (dir, files) walk /\ In file files
       /\ p = joinpath_path dir (Path file)
       /\ wanted fnmatch pattern exceptions file)
  /\ the_end g
     = Finished (if nonempty (yields g) then [] else [NotFound pattern]).
Proof.
  intros Hp He. unfold find_files.
  pose proof (find_in_walk_usable fnmatch pattern exceptions walk Hp He false)
    as H.
  destruct (find_in_walk fnmatch pattern exceptions walk false)
    as [[ys found] e].
  destruct H as (-> & -> & Hin). simpl. split; [exact Hin|reflexivity].
Qed.

Lemma find_files_spec_witness :
  let g := find_files glob "*.vtk" (Path "case") sample_walk ["cloud*"] in
  (forall p, In p (yields g) <->
     exists dir files file,
       In (dir, files) sample_walk /\ In file files
       /\ p = joinpath_path dir (Path file)
       /\ wanted glob "*.vtk" ["cloud*"] file)
  /\ the_end g
     = Finished (if nonempty (yields g) then [] else [NotFound "*.vtk"]).
Proof.
  apply (find_files_spec glob "*.vtk" (Path "case") sample_walk ["cloud*"]).
  - right. intros H. vm_compute in H. discriminate H.
  - constructor; [|constructor].
    right. intros H. vm_compute in H. discriminate H.
Defined.

Lemma find_files_example :
  yields (find_files glob "*.vtk" (Path "case") sample_walk ["cloud*"])
  = [Path "case/VTK/U.VTK"]
  /\ find_files glob "*.xy" (Path "case") sample_walk []
     = {| first_out := [Looking "*.xy" (Path "case")];
          yields := [];
          the_end := Finished [NotFound "*.xy"] |}.
Proof. split; reflexivity. Qed.

(** C4 as it is worded fails on the empty pattern: no file matches it, and
    yet the scan of a directory that holds a file does not end as an empty
    sequence: [pathlib] raises [ValueError] at the first file. *)
Lemma find_files_empty_pattern_raises :
  let g := find_files glob "" (Path "case") [(Path "case", ["U.vtk"])] [] in
  yields g = []
  /\ the_end g = Raised (ValueError "empty pattern")
  /\ ~ (exists out, the_end g = Finished out).
Proof.
  repeat split. intros [out H]. discriminate H.
Qed.

(** ** The scanner looks at base names only *)

Section BaseName.
Variable fnmatch : bool -> string -> string -> bool.

Lemma match_rev_short (cs : bool) (pat path : list string) :
  (length path < length pat)%nat -> match_rev fnmatch cs pat path = false.
Proof.
  revert path. induction pat as [|x pat IH]; intros path H; simpl in *.
  - lia.
  - destruct path as [|y path]; [reflexivity|].
    rewrite IH by (simpl in H; lia). apply andb_false_r.
Qed.

Lemma Path_of_name (file : string) :
  plain file ->
  root (Path file) = "" /\ (length (tail (Path file)) <= 1)%nat.
Proof.
  intros H. unfold Path, parse_root. cbn [root tail].
  rewrite (startswith_char_contains "/" file H).
  rewrite split_on_no_sep by exact H.
  split; [reflexivity|]. cbn [List.filter].
  destruct (is_part file); simpl; lia.
Qed.

Lemma path_match_directory (pattern file : string) :
  names_a_directory pattern -> plain file ->
  path_match fnmatch (Path file) pattern false = Ok false.
Proof.
  intros Hd Hf. destruct (Path_of_name file Hf) as [Hroot Hlen].
  unfold path_match. destruct (is_absolute (Path pattern)) eqn:Ha.
  - rewrite Hroot. unfold is_absolute in Ha.
    destruct (root (Path pattern)); [cbv in Ha; discriminate Ha|].
    reflexivity.
  - destruct Hd as [Hd|Hd]; [congruence|].
    destruct (tail (Path pattern)) as [|x l] eqn:Ht; [simpl in Hd; lia|].
    rewrite match_rev_short; [reflexivity|].
    rewrite !length_rev. simpl in *. lia.
Qed.

Lemma selected_directory (pattern : string) (exceptions files : list string) :
  names_a_directory pattern -> Forall plain files ->
  selected fnmatch pattern exceptions files = ([], None).
Proof.
  intros Hd. induction 1 as [|file rest Hf Hrest IH]; simpl; [reflexivity|].
  unfold keep. rewrite (path_match_directory pattern file Hd Hf). simpl.
  exact IH.
Qed.

Lemma find_in_walk_directory (pattern : string) (exceptions : list string)
  (walk : list (PurePath * list string)) :
  names_a_directory pattern ->
  Forall (fun entry => Forall plain (snd entry)) walk ->
  forall is_found,
    find_in_walk fnmatch pattern exceptions walk is_found
    = ([], is_found, None).
Proof.
  intros Hd. induction 1 as [|[dir files] rest Hf Hrest IH]; intros is_found;
    simpl; [reflexivity|].
  rewrite find_in_files_selected, (selected_directory _ _ _ Hd Hf). simpl.
  rewrite orb_false_r, IH. reflexivity.
Qed.

Lemma find_in_walk_placed (pattern : string) (exceptions : list string)
  (walk : list (PurePath * list string)) :
  forall is_found,
    fst (fst (find_in_walk fnmatch pattern exceptions walk is_found))
    = placed (map fst walk)
        (picked fnmatch pattern exceptions (map snd walk)).
Proof.
  induction walk as [|[dir files] rest IH]; intros is_found; [reflexivity|].
  cbn [find_in_walk map fst snd picked]. rewrite find_in_files_selected.
  destruct (selected fnmatch pattern exceptions files) as [names [e|]];
    cbn [fst snd].
  - unfold placed. cbn [combine]. rewrite combine_nil.
    cbn [flat_map fst snd]. now rewrite app_nil_r.
  - specialize (IH (is_found || nonempty names)).
    destruct (find_in_walk fnmatch pattern exceptions rest _)
      as [[ys found] e].
    cbn [fst snd] in *. rewrite IH. reflexivity.
Qed.

Lemma find_in_walk_names (pattern : string) (exceptions : list string)
  (walk : list (PurePath * list string)) :
  forall walk' is_found,
    map snd walk = map snd walk' ->
    snd (fst (find_in_walk fnmatch pattern exceptions walk is_found))
    = snd (fst (find_in_walk fnmatch pattern exceptions walk' is_found))
    /\ snd (find_in_walk fnmatch pattern exceptions walk is_found)
       = snd (find_in_walk fnmatch pattern exceptions walk' is_found).
Proof.
  induction walk as [|[dir files] rest IH];
    intros [|[dir' files'] rest'] is_found Hw; try discriminate Hw.
  - now split.
  - cbn [map snd] in Hw. inversion Hw as [[Hfiles Hrest]]. subst files'.
    cbn [find_in_walk]. rewrite !find_in_files_selected.
    destruct (selected fnmatch pattern exceptions files) as [names [e|]];
      cbn [fst snd]; [now split|].
    specialize (IH rest' (is_found || nonempty names) Hrest).
    destruct (find_in_walk fnmatch pattern exceptions rest _)
      as [[ys found] e].
    destruct (find_in_walk fnmatch pattern exceptions rest' _)
      as [[ys' found'] e'].
    exact IH.
Qed.

Lemma picked_usable (pattern : string) (exceptions : list string)
  (files_of : list (list string)) :
  usable pattern -> Forall usable exceptions ->
  Forall2
    (fun files names =>
       forall file,
         In file names
         <-> In file files /\ wanted fnmatch pattern exceptions file)
    files_of (picked fnmatch pattern exceptions files_of).
Proof.
  intros Hp He. induction files_of as [|files rest IH]; [constructor|].
  cbn [picked].
  destruct (selected_usable fnmatch pattern exceptions files Hp He)
    as [Hnone Hin].
  rewrite Hnone. now constructor.
Qed.

End BaseName.

(** C9 (amended): the names of the files alone decide what is yielded:
    the paths yielded are the names kept in each directory, a choice made
    from the names of the files and from nothing else, each under the
    directory it lies in and in the order of the walk; the end of the scan
    is the same for the same names under other directories; with patterns
    that [pathlib] accepts, the names kept in a directory are those of its
    files that match the pattern and none of the exclusions; and a pattern
    that [pathlib] reads as absolute or as two components or more matches
    no file at all. *)
Theorem find_files_base_name (fnmatch : bool -> string -> string -> bool)
  (pattern : string) (path : PurePath) (exceptions : list string) :
  (forall walk,
     yields (find_files fnmatch pattern path walk exceptions)
     = placed (map fst walk)
         (picked fnmatch pattern exceptions (map snd walk)))
  /\ (forall walk walk' path',
        map snd walk = map snd walk' ->
        the_end (find_files fnmatch pattern path walk exceptions)
        = the_end (find_files fnmatch pattern path' walk' exceptions))
  /\ (forall files_of,
        usable pattern -> Forall usable exceptions ->
        Forall2
          (fun files names =>
             forall file,
               In file names
               <-> In file files /\ wanted fnmatch pattern exceptions file)
          files_of (picked fnmatch pattern exceptions files_of))
  /\ (forall walk,
        names_a_directory pattern ->
        Forall (fun entry => Forall plain (snd entry)) walk ->
        let g := find_files fnmatch pattern path walk exceptions in
        yields g = [] /\ the_end g = Finished [NotFound pattern]).
Proof.
  split; [|split; [|split]].
  - intros walk. unfold find_files.
    pose proof (find_in_walk_placed fnmatch pattern exceptions walk false)
      as H.
    destruct (find_in_walk fnmatch pattern exceptions walk false)
      as [[ys found] e].
    exact H.
  - intros walk walk' path' Hw. unfold find_files.
    pose proof (find_in_walk_names fnmatch pattern exceptions walk walk'
                  false Hw) as H.
    destruct (find_in_walk fnmatch pattern exceptions walk false)
      as [[ys found] e].
    destruct (find_in_walk fnmatch pattern exceptions walk' false)
      as [[ys' found'] e'].
    cbn [fst snd] in H. destruct H as [-> ->]. reflexivity.
  - intros files_of. apply picked_usable.
  - intros walk Hd Hw. unfold find_files.
    now rewrite (find_in_walk_directory fnmatch pattern exceptions walk Hd Hw).
Qed.

Lemma find_files_base_name_witness :
  (yields (find_files glob "*.vtk" (Path "/tmp") moved_walk ["cloud*"])
   = placed [Path "/tmp/other"; Path "elsewhere"] [[]; ["U.VTK"]])
  /\ (the_end (find_files glob "*.vtk" (Path "case") sample_walk ["cloud*"])
      = the_end (find_files glob "*.vtk" (Path "/tmp") moved_walk ["cloud*"]))
  /\ (let g := find_files glob "VTK/*.vtk" (Path "case") sample_walk [] in
      yields g = [] /\ the_end g = Finished [NotFound "VTK/*.vtk"]).
Proof.
  split; [|split].
  - exact (proj1 (find_files_base_name glob "*.vtk" (Path "/tmp") ["cloud*"])
             moved_walk).
  - apply (proj1 (proj2 (find_files_base_name glob "*.vtk" (Path "case")
                           ["cloud*"]))
             sample_walk moved_walk (Path "/tmp")).
    reflexivity.
  - apply (proj2 (proj2 (proj2 (find_files_base_name glob "VTK/*.vtk"
                                  (Path "case") [])))
             sample_walk).
    + right. simpl. lia.
    + repeat constructor.
Defined.

(** The same names under other directories: the same files are yielded,
    each under its own directory. *)
Lemma find_files_moved_example :
  yields (find_files glob "*.vtk" (Path "case") sample_walk ["cloud*"])
  = [Path "case/VTK/U.VTK"]
  /\ yields (find_files glob "*.vtk" (Path "/tmp") moved_walk ["cloud*"])
     = [Path "elsewhere/U.VTK"].
Proof. split; reflexivity. Qed.

(** C9 as it is worded fails: the pattern [./*.vtk] holds a separator, and
    it matches, because [pathlib] drops the component [.] when it reads the
    pattern. *)
Lemma find_files_separator_matches :
  contains "/" "./*.vtk" = true
  /\ yields (find_files glob "./*.vtk" (Path "case") sample_walk [])
     = [Path "case/VTK/U.VTK"; Path "case/VTK/cloud.vtk"].
Proof. split; reflexivity. Qed.

(** ** [read_data] of the live monitor *)

Lemma last_map {A B : Type} (f : A -> B) (l : list A) (d : A) (d' : B) :
  l <> [] -> List.last (map f l) d' = f (List.last l d).
Proof.
  induction l as [|x l IH]; intros Hl; [contradiction|].
  destruct l as [|y l]; [reflexivity|].
  change (List.last (map f (y :: l)) d' = f (List.last (y :: l) d)).
  apply IH. discriminate.
Qed.

(** C10: with fewer than two lines that start with [#], [read_data] raises
    the [ValueError] of the missing header, whatever the only such line
    holds; and when it returns, there were at least two such lines and the
    labels are the words of the last one, without its [#]. *)
Theorem read_data_header (content : string) :
  ((length (comment_lines content) < 2)%nat ->
   read_data content = Raise no_header)
  /\ (forall field_names numeric_data,
        read_data content = Ok (field_names, numeric_data) ->
        (2 <= length (comment_lines content))%nat
        /\ field_names
           = split (remove_char "#"
                      (strip (List.last (comment_lines content) "")))).
Proof.
  unfold read_data. fold (comment_lines content).
  rewrite length_map.
  destruct (2 <=? length (comment_lines content))%nat eqn:E.
  - apply Nat.leb_le in E. split; [lia|].
    intros field_names numeric_data H.
    split; [exact E|].
    assert (Hne : comment_lines content <> []).
    { intros Hnil. rewrite Hnil in E. simpl in E. lia. }
    rewrite (last_map strip _ "" "" Hne) in H.
    destruct (startswith "#" (strip (List.last (comment_lines content) "")));
      simpl in H; [|discriminate H].
    destruct (to_arrays _) as [arrays|[]]; simpl in H; try discriminate H.
    now inversion H.
  - apply Nat.leb_gt in E. split; [reflexivity|].
    intros field_names numeric_data H. discriminate H.
Qed.

Lemma read_data_header_witness :
  read_data ("# Time Ux Uy p" ++ nl ++ "0 1 1 1" ++ nl) = Raise no_header.
Proof.
  apply (proj1 (read_data_header ("# Time Ux Uy p" ++ nl ++ "0 1 1 1" ++ nl))).
  vm_compute. lia.
Defined.

(** With a second comment line above the labels the same table is read,
    and [N/A] becomes a NaN. *)
Lemma read_data_example :
  read_data ("# Residuals" ++ nl ++ "# Time Ux" ++ nl
             ++ "0 1e-3" ++ nl ++ "1 N/A" ++ nl)
  = Ok (["Time"; "Ux"], [[Float "0"; Float "1"]; [Float "1e-3"; NaN]]).
Proof. reflexivity. Qed.

(** ** The driver and the error boundary of each file *)

Lemma find_files_finishes (fnmatch : bool -> string -> string -> bool)
  (pattern : string) (path : PurePath)
  (walk : list (PurePath * list string)) (exceptions : list string) :
  usable pattern -> Forall usable exceptions ->
  exists out,
    the_end (find_files fnmatch pattern path walk exceptions) = Finished out
    /\ processed out = []
    /\ processed
         (first_out (find_files fnmatch pattern path walk exceptions)) = [].
Proof.
  intros Hp He. unfold find_files.
  pose proof (find_in_walk_usable fnmatch pattern exceptions walk Hp He false)
    as H.
  destruct (find_in_walk fnmatch pattern exceptions walk false)
    as [[ys found] e].
  destruct H as (-> & _ & _). simpl.
  eexists. split; [reflexivity|]. split; [now destruct found|reflexivity].
Qed.

Lemma processed_app (out out' : list event) :
  processed (out ++ out')%list = (processed out ++ processed out')%list.
Proof.
  induction out as [|ev out IH]; [reflexivity|].
  destruct ev; simpl; rewrite IH; reflexivity.
Qed.

Lemma processed_reports (lines : list string) :
  processed (map Report lines) = [].
Proof. induction lines as [|l lines IH]; [reflexivity|exact IH]. Qed.

Lemma reader_events_app (out out' : list event) :
  reader_events (out ++ out')%list
  = (reader_events out ++ reader_events out')%list.
Proof.
  induction out as [|ev out IH]; [reflexivity|].
  destruct ev; simpl; rewrite IH; reflexivity.
Qed.

Lemma reader_events_reports (lines : list string) :
  reader_events (map Report lines) = map Report lines.
Proof.
  induction lines as [|l lines IH]; [reflexivity|].
  simpl. now rewrite IH.
Qed.

(** The scanner prints lines of its own only. *)
Lemma find_files_quiet (fnmatch : bool -> string -> string -> bool)
  (pattern : string) (path : PurePath)
  (walk : list (PurePath * list string)) (exceptions : list string) :
  usable pattern -> Forall usable exceptions ->
  exists out,
    the_end (find_files fnmatch pattern path walk exceptions) = Finished out
    /\ processed out = [] /\ reader_events out = []
    /\ processed
         (first_out (find_files fnmatch pattern path walk exceptions)) = []
    /\ reader_events
         (first_out (find_files fnmatch pattern path walk exceptions)) = [].
Proof.
  intros Hp He. unfold find_files.
  pose proof (find_in_walk_usable fnmatch pattern exceptions walk Hp He false)
    as H.
  destruct (find_in_walk fnmatch pattern exceptions walk false)
    as [[ys found] e].
  destruct H as (-> & _ & _). simpl.
  eexists. split; [reflexivity|]. now destruct found.
Qed.

Lemma isolated_bind (jobs jobs' : list job) (m m' : io unit) :
  isolated jobs m -> isolated jobs' m' ->
  isolated (jobs ++ jobs')%list (io_bind m (fun _ => m')).
Proof.
  destruct m as [out r], m' as [out' r'].
  intros (Hr & Hp & Hu & Hev) (Hr' & Hp' & Hu' & Hev'). simpl in *.
  subst r r'. unfold isolated. simpl. split; [reflexivity|].
  split; [|split].
  - now rewrite processed_app, map_app, Hp, Hp'.
  - intros f lines e Hin. apply in_app_iff.
    apply in_app_iff in Hin as [Hin|Hin]; [left|right]; eauto.
  - now rewrite reader_events_app, flat_map_app, Hev, Hev'.
Qed.

Lemma isolated_quiet (out : list event) :
  processed out = [] -> reader_events out = [] -> isolated [] (out, Ok tt).
Proof.
  intros H H'. split; [reflexivity|]. split; [exact H|].
  split; [intros f lines e []|exact H'].
Qed.

(** The boundary itself: a decorated reader returns whatever its body does
    with an instance of [Exception], after the output of the body, and
    prints the name of the file. *)
Lemma read_file_decorator_catches
  (body : PurePath -> list string * result unit) (f : PurePath) :
  raises_exceptions body ->
  exists out v,
    read_file_decorator (fun filepath => reports (body filepath)) f
    = (out, Ok v)
    /\ processed out = [f]
    /\ (forall lines e, body f = (lines, Raise e) ->
                        In (Unable (name f) e) out)
    /\ reader_events out = job_events (f, body f).
Proof.
  intros Hb. unfold read_file_decorator, reports, job_events.
  destruct (body f) as [lines [v|e]] eqn:E; cbn [fst snd].
  - eexists _, _. split; [reflexivity|]. split; [|split].
    + simpl. now rewrite processed_reports.
    + intros lines' e' H. discriminate H.
    + cbn [reader_events]. now rewrite reader_events_reports, app_nil_r.
  - rewrite (Hb f lines e E).
    eexists _, _. split; [reflexivity|]. split; [|split].
    + simpl. rewrite processed_app, processed_reports. reflexivity.
    + intros lines' e' H. inversion H; subst. right.
      apply in_app_iff. right. now left.
    + cbn [reader_events].
      now rewrite reader_events_app, reader_events_reports.
Qed.

Lemma isolated_for_each (body : PurePath -> list string * result unit)
  (files : list PurePath) :
  raises_exceptions body ->
  isolated (jobs_for body files)
    (for_each files
       (read_file_decorator (fun filepath => reports (body filepath)))).
Proof.
  intros Hb. induction files as [|f files IH].
  - now apply isolated_quiet.
  - destruct (read_file_decorator_catches body f Hb)
      as (out & v & Hrun & Hp & Hu & Hev).
    simpl. rewrite Hrun.
    change (isolated (([(f, body f)] ++ jobs_for body files)%list)
              (io_bind (out, Ok tt) (fun _ =>
                 for_each files
                   (read_file_decorator
                      (fun filepath => reports (body filepath)))))).
    apply isolated_bind; [|exact IH].
    split; [reflexivity|]. split; [exact Hp|]. split.
    + intros f' lines e [H|[]]. inversion H; subst. eauto.
    + cbn [flat_map fst]. now rewrite app_nil_r.
Qed.

Lemma isolated_for_gen (fnmatch : bool -> string -> string -> bool)
  (body : PurePath -> list string * result unit)
  (pattern : string) (path : PurePath)
  (walk : list (PurePath * list string)) (exceptions : list string) :
  usable pattern -> Forall usable exceptions -> raises_exceptions body ->
  let g := find_files fnmatch pattern path walk exceptions in
  isolated (jobs_for body (yields g))
    (for_gen g
       (read_file_decorator (fun filepath => reports (body filepath)))).
Proof.
  intros Hp He Hb g.
  destruct (find_files_quiet fnmatch pattern path walk exceptions Hp He)
    as (out & Hend & Hout & Hout' & Hfirst & Hfirst').
  fold g in Hend, Hfirst, Hfirst'. unfold for_gen. rewrite Hend.
  change (isolated ([] ++ jobs_for body (yields g))%list
            (io_bind (first_out g, Ok tt) (fun _ =>
               io_bind (for_each (yields g)
                          (read_file_decorator
                             (fun filepath => reports (body filepath))))
                 (fun _ => (out, Ok tt))))).
  apply isolated_bind.
  - now apply isolated_quiet.
  - rewrite <- (app_nil_r (jobs_for body (yields g))).
    apply isolated_bind; [now apply isolated_for_each|].
    now apply isolated_quiet.
Qed.

Section DriverProperties.
Variables VTK_FILE CLOUD_FILE RES_FILE DAT_FILE XY_FILE FORCE_FILE : string.
Variable paths : list PurePath.
Variable fnmatch : bool -> string -> string -> bool.
Variable walk : PurePath -> list (PurePath * list string).
Variable vtk2image_body : PurePath -> list string * result unit.
Variable read_dat_body : PurePath -> bool -> bool -> list string * result unit.
Variable read_forces_body : PurePath -> list string * result unit.

(** The patterns of the options are patterns [pathlib] accepts, and the
    readers raise instances of [Exception]. *)
Hypothesis usable_patterns :
  Forall usable [VTK_FILE; CLOUD_FILE; RES_FILE; DAT_FILE; XY_FILE; FORCE_FILE].
Hypothesis vtk2image_raises : raises_exceptions vtk2image_body.
Hypothesis read_dat_raises :
  forall semilogy append_units,
    raises_exceptions (fun f => read_dat_body f semilogy append_units).
Hypothesis read_forces_raises : raises_exceptions read_forces_body.

Lemma isolated_analyze (path : PurePath) :
  isolated
    (jobs_of VTK_FILE CLOUD_FILE RES_FILE DAT_FILE XY_FILE FORCE_FILE
       fnmatch walk vtk2image_body read_dat_body read_forces_body path)
    (analyze VTK_FILE CLOUD_FILE RES_FILE DAT_FILE XY_FILE FORCE_FILE
       fnmatch walk vtk2image_body read_dat_body read_forces_body path).
Proof.
  pose proof usable_patterns as H.
  repeat (apply Forall_cons_iff in H as [? H]).
  unfold jobs_of, analyze, scan, vtk2image, read_dat, Main.read_forces.
  do 4 (apply isolated_bind;
        [apply isolated_for_gen;
         solve [ assumption
               | repeat (apply List.Forall_cons; [assumption|]);
                 apply List.Forall_nil
               | apply read_dat_raises ]|]).
  apply isolated_for_gen;
    solve [ assumption | apply List.Forall_nil ].
Qed.

Lemma isolated_analyze_all (ps : list PurePath) :
  isolated
    (flat_map
       (jobs_of VTK_FILE CLOUD_FILE RES_FILE DAT_FILE XY_FILE FORCE_FILE
          fnmatch walk vtk2image_body read_dat_body read_forces_body)
       ps)
    (analyze_all VTK_FILE CLOUD_FILE RES_FILE DAT_FILE XY_FILE FORCE_FILE
       fnmatch walk vtk2image_body read_dat_body read_forces_body ps).
Proof.
  induction ps as [|path ps IH]; simpl.
  - now apply isolated_quiet.
  - apply isolated_bind; [apply isolated_analyze|exact IH].
Qed.

(** C7: whatever the files and whichever readers raise, every file the
    scans yield is processed, in order; an exception of a reader leaves the
    line that names the file it was raised on; the readers print, file
    after file, all that each of them prints on its file, so that a
    failure takes nothing from the files after it; and the program ends
    with [sys.exit(0)]. *)
Theorem main_isolates_failures :
  let run :=
    main VTK_FILE CLOUD_FILE RES_FILE DAT_FILE XY_FILE FORCE_FILE paths
      fnmatch walk vtk2image_body read_dat_body read_forces_body in
  snd run = Exited 0
  /\ processed (fst run)
     = map fst
         (flat_map
            (jobs_of VTK_FILE CLOUD_FILE RES_FILE DAT_FILE XY_FILE FORCE_FILE
               fnmatch walk vtk2image_body read_dat_body read_forces_body)
            paths)
  /\ (forall f lines e,
        In (f, (lines, Raise e))
          (flat_map
             (jobs_of VTK_FILE CLOUD_FILE RES_FILE DAT_FILE XY_FILE FORCE_FILE
                fnmatch walk vtk2image_body read_dat_body read_forces_body)
             paths) ->
        In (Unable (name f) e) (fst run))
  /\ reader_events (fst run)
     = flat_map job_events
         (flat_map
            (jobs_of VTK_FILE CLOUD_FILE RES_FILE DAT_FILE XY_FILE FORCE_FILE
               fnmatch walk vtk2image_body read_dat_body read_forces_body)
            paths).
Proof.
  unfold main. destruct (isolated_analyze_all paths) as (Hr & Hp & Hu & Hev).
  destruct (analyze_all _ _ _ _ _ _ _ _ _ _ _ paths) as [out r].
  simpl in *. subst r. simpl. auto.
Qed.

End DriverProperties.

Lemma demo_usable :
  Forall usable
    ["*.vtk"; "cloud*.vtk"; "residuals*.dat"; "*.dat"; "*.xy"; "force*.dat"].
Proof.
  repeat (apply List.Forall_cons;
          [right; intros H; vm_compute in H; discriminate H|]).
  apply List.Forall_nil.
Defined.

Lemma demo_read_dat_raises (semilogy append_units : bool) :
  raises_exceptions (fun f => demo_read_dat f semilogy append_units).
Proof.
  intros f lines e H. unfold demo_read_dat in H.
  destruct (String.eqb (name f) "b.dat"); inversion H. reflexivity.
Defined.

Lemma demo_quiet_raises : raises_exceptions demo_quiet.
Proof. intros f lines e H. inversion H. Defined.

Lemma main_isolates_failures_witness :
  snd demo_run = Exited 0
  /\ processed (fst demo_run)
     = [Path "case/postProcessing/probes/0/a.dat";
        Path "case/postProcessing/probes/0/b.dat";
        Path "case/postProcessing/probes/0/c.dat"]
  /\ In (Unable "b.dat" (ValueError "malformed")) (fst demo_run)
  /\ reader_events (fst demo_run)
     = [Processing (Path "case/postProcessing/probes/0/a.dat");
        Report "plot of a.dat";
        Processing (Path "case/postProcessing/probes/0/b.dat");
        Unable "b.dat" (ValueError "malformed");
        Processing (Path "case/postProcessing/probes/0/c.dat");
        Report "plot of c.dat"].
Proof.
  destruct (main_isolates_failures
              "*.vtk" "cloud*.vtk" "residuals*.dat" "*.dat" "*.xy" "force*.dat"
              [Path "case"] glob demo_walk demo_quiet demo_read_dat demo_quiet
              demo_usable demo_quiet_raises demo_read_dat_raises
              demo_quiet_raises) as (Hexit & Hfiles & Hlines & Hevents).
  split; [exact Hexit|]. split; [exact Hfiles|]. split; [|exact Hevents].
  apply (Hlines (Path "case/postProcessing/probes/0/b.dat") []
           (ValueError "malformed")).
  vm_compute. auto.
Defined.

(** The whole output of that run. *)
Lemma demo_run_output :
  demo_run
  = ([Looking "*.vtk" (Path "case"); NotFound "*.vtk";
      Looking "residuals*.dat" (Path "case"); NotFound "residuals*.dat";
      Looking "*.dat" (Path "case");
      Processing (Path "case/postProcessing/probes/0/a.dat");
      Report "plot of a.dat";
      Processing (Path "case/postProcessing/probes/0/b.dat");
      Unable "b.dat" (ValueError "malformed");
      Processing (Path "case/postProcessing/probes/0/c.dat");
      Report "plot of c.dat";
      Looking "*.xy" (Path "case"); NotFound "*.xy";
      Looking "force*.dat" (Path "case"); NotFound "force*.dat"],
     Exited 0).
Proof. reflexivity. Qed.

(** What the boundary lets through: an interrupt is no instance of
    [Exception], and a scan with an empty pattern raises outside every
    boundary. *)
Lemma main_uncaught :
  snd (main "*.vtk" "cloud*.vtk" "residuals*.dat" "*.dat" "*.xy" "force*.dat"
         [Path "case"] glob demo_walk demo_quiet
         (fun _ _ _ => ([], Raise KeyboardInterrupt)) demo_quiet)
  = Uncaught KeyboardInterrupt
  /\ snd (main "" "cloud*.vtk" "residuals*.dat" "*.dat" "*.xy" "force*.dat"
            [Path "case"] glob demo_walk demo_quiet demo_read_dat demo_quiet)
     = Uncaught (ValueError "empty pattern").
Proof. split; reflexivity. Qed.

(** ** The search for [forces(...)] *)

Lemma search_group_eq (prefix s : string) :
  Re.search_group prefix s
  = match attempt prefix s with
    | Some g => Some g
    | None =>
        match s with
        | EmptyString => None
        | String _ s' => Re.search_group prefix s'
        end
    end.
Proof. destruct s; reflexivity. Qed.

Lemma drop_prefix_sound (p s r : string) :
  drop_prefix p s = Some r -> s = p ++ r.
Proof.
  revert s. induction p as [|a p IH]; intros s H; simpl in H.
  - now inversion H.
  - destruct s as [|b s]; [discriminate H|].
    destruct (Ascii.eqb a b) eqn:E; [|discriminate H].
    apply Ascii.eqb_eq in E. subst b.
    rewrite append_cons. f_equal. now apply IH.
Qed.

Lemma drop_prefix_app (p r : string) : drop_prefix p (p ++ r) = Some r.
Proof.
  induction p as [|a p IH]; [reflexivity|].
  rewrite append_cons. simpl. now rewrite Ascii.eqb_refl.
Qed.

Lemma until_sound (c : ascii) (s g : string) :
  Re.until c s = Some g ->
  exists rest,
    s = g ++ String c rest
    /\ contains c g = false /\ contains newline g = false.
Proof.
  revert g. induction s as [|a s IH]; intros g H; simpl in H;
    [discriminate H|].
  destruct (Ascii.eqb a c) eqn:Ec.
  - inversion H; subst g. apply Ascii.eqb_eq in Ec. subst a.
    exists s. repeat split.
  - destruct (Ascii.eqb a newline) eqn:En; [discriminate H|].
    destruct (Re.until c s) as [g'|]; [|discriminate H].
    inversion H; subst g. destruct (IH g' eq_refl) as (rest & -> & Hc & Hn).
    exists rest. simpl. rewrite Ec, En. now repeat split.
Qed.

Lemma until_app (c : ascii) (g rest : string) :
  contains c g = false -> contains newline g = false ->
  Re.until c (g ++ String c rest) = Some g.
Proof.
  induction g as [|a g IH]; intros Hc Hn.
  - simpl. now rewrite Ascii.eqb_refl.
  - rewrite append_cons. simpl in *.
    apply orb_false_iff in Hc as [Hc1 Hc2].
    apply orb_false_iff in Hn as [Hn1 Hn2].
    rewrite Hc1, Hn1, IH by assumption. reflexivity.
Qed.

Lemma attempt_sound (prefix s g : string) :
  attempt prefix s = Some g -> token prefix s "" g.
Proof.
  unfold attempt. intros H.
  destruct (drop_prefix prefix s) as [r|] eqn:E; [|discriminate H].
  apply drop_prefix_sound in E. subst s.
  destruct (until_sound ")" r g H) as (rest & -> & Hc & Hn).
  exists rest. now repeat split.
Qed.

Lemma attempt_token (prefix s group : string) :
  token prefix s "" group -> attempt prefix s = Some group.
Proof.
  intros (rest & -> & Hc & Hn). unfold attempt.
  change ("" ++ prefix ++ group ++ String ")" rest)
    with (prefix ++ group ++ String ")" rest).
  rewrite drop_prefix_app. now apply until_app.
Qed.

Lemma token_cons (prefix s before group : string) (c : ascii) :
  token prefix s before group ->
  token prefix (String c s) (String c before) group.
Proof.
  intros (rest & -> & Hc & Hn). exists rest. now repeat split.
Qed.

(** What the search returns is a token of the text. *)
Lemma search_group_sound (prefix s g : string) :
  Re.search_group prefix s = Some g -> exists before, token prefix s before g.
Proof.
  induction s as [|c s IH]; rewrite search_group_eq; intros H.
  - destruct (attempt prefix "") eqn:E; [|discriminate H].
    inversion H; subst. exists "". now apply attempt_sound.
  - destruct (attempt prefix (String c s)) eqn:E.
    + inversion H; subst. exists "". now apply attempt_sound.
    + destruct (IH H) as [before Ht]. exists (String c before).
      now apply token_cons.
Qed.

(** The search returns the token that starts first. *)
Lemma search_group_leftmost (prefix s group : string) :
  leftmost prefix s group -> Re.search_group prefix s = Some group.
Proof.
  intros (before & Ht & Hmin). revert s Ht Hmin.
  induction before as [|c before IH]; intros s Ht Hmin;
    rewrite search_group_eq.
  - now rewrite (attempt_token prefix s group Ht).
  - destruct (attempt prefix s) as [g0|] eqn:E.
    + apply attempt_sound in E. apply Hmin in E. simpl in E. lia.
    + destruct Ht as (rest & -> & Hc & Hn). rewrite append_cons.
      apply IH.
      * exists rest. now repeat split.
      * intros before' group' Ht'.
        pose proof (Hmin (String c before') group'
                      (token_cons _ _ _ _ c Ht')) as Hle.
        simpl in Hle. lia.
Qed.

Lemma search_group_none (prefix s : string) :
  (forall before group, ~ token prefix s before group) ->
  Re.search_group prefix s = None.
Proof.
  intros Hnone. destruct (Re.search_group prefix s) as [g|] eqn:E;
    [|reflexivity].
  destruct (search_group_sound prefix s g E) as [before Ht].
  now destruct (Hnone before g).
Qed.

(** ** [read_forces] *)

Section ForcesProperties.
Variable num : Type.
Variable zero : num.
Variable add : num -> num -> num.
Variable COMPONENTS_EXT : list string.
Variable FORCE_LABEL MOMENT_LABEL : string.
Variable plot_data : list (string * list num) -> PurePath -> string -> io unit.
Variable read_csv : string -> result (DataFrame num).


Lemma fold_left_sum_over (f : nat -> num) (n : nat) :
  fold_left add (map f (seq 0 n)) zero = sum_over num zero add n f.
Proof.
  induction n as [|n IH]; [reflexivity|].
  rewrite seq_S, map_app, fold_left_app, IH. reflexivity.
Qed.

Lemma iloc_cols_in_range (data : DataFrame num) (axes : list nat) :
  Forall (fun i => (i < ncols data)%nat) axes ->
  iloc_cols data axes
  = Ok {| nrows := nrows data;
          columns :=
            map (fun i => nth i (columns data) (EmptyString, [])) axes |}.
Proof.
  intros H. unfold iloc_cols.
  replace (forallb (fun i => (i <? ncols data)%nat) axes) with true;
    [reflexivity|].
  symmetry. apply forallb_forall. intros i Hi.
  apply Nat.ltb_lt. rewrite List.Forall_forall in H. now apply H.
Qed.

Lemma sum_axis1_selected (data : DataFrame num) (index n : nat) :
  sum_axis1 num zero add
    {| nrows := nrows data;
       columns :=
         map (fun i => nth i (columns data) (EmptyString, []))
           (map (fun k => (index + 3 * k)%nat) (seq 0 n)) |}
  = map (fun r =>
           sum_over num zero add n
             (fun k => cell num zero data r (index + 3 * k)%nat))
      (seq 0 (nrows data)).
Proof.
  unfold sum_axis1. cbn [nrows columns]. apply map_ext. intros r.
  rewrite !map_map. apply fold_left_sum_over.
Qed.

Lemma set_column_fresh (df : list (string * list num)) (label : string)
  (column : list num) :
  ~ In label (map fst df) ->
  set_column df label column = (df ++ [(label, column)])%list.
Proof.
  induction df as [|[l c] df IH]; intros H; simpl; [reflexivity|].
  destruct (String.eqb l label) eqn:E.
  - apply String.eqb_eq in E. subst l. exfalso. apply H. now left.
  - rewrite IH; [reflexivity|]. intros Hin. apply H. now right.
Qed.

(** One turn of the loop of [sum_contribs]. *)
Lemma sum_loop_step (data : DataFrame num) (n index : nat) (label : string)
  (todo : list (nat * string)) (df : list (string * list num)) :
  (index + 3 * n <= ncols data + 2)%nat ->
  ~ In label (map fst df) ->
  sum_loop num zero add data n ((index, label) :: todo) df
  = sum_loop num zero add data n todo
      (df ++ [(label,
               map (fun r =>
                      sum_over num zero add n
                        (fun k => cell num zero data r (index + 3 * k)%nat))
                   (seq 0 (nrows data)))])%list.
Proof.
  intros Hrange Hfresh. simpl.
  rewrite iloc_cols_in_range.
  - simpl. now rewrite sum_axis1_selected, set_column_fresh.
  - apply List.Forall_forall. intros i Hi.
    apply in_map_iff in Hi as (k & <- & Hk). apply in_seq in Hk. lia.
Qed.

Lemma sum_contribs_block (data : DataFrame num) (time : list num)
  (label cx cy cz : string) (base n : nat) :
  COMPONENTS_EXT = [cx; cy; cz] ->
  List.NoDup ["Time"; label ++ cx; label ++ cy; label ++ cz] ->
  iloc_col data 0 = Ok time ->
  (base + 3 * n <= ncols data)%nat ->
  sum_contribs COMPONENTS_EXT num zero add data base label n
  = Ok (block num zero add data time label cx cy cz base n).
Proof.
  intros Hc Hd Ht Hrange. unfold sum_contribs. rewrite Ht, Hc.
  replace (seq base 3) with [base + 0; base + 1; base + 2]%nat
    by (cbn [seq]; repeat (f_equal; try lia)).
  cbn [rbind set_column map zip].
  apply List.NoDup_cons_iff in Hd as [Hn1 Hd].
  apply List.NoDup_cons_iff in Hd as [Hn2 Hd].
  apply List.NoDup_cons_iff in Hd as [Hn3 _].
  rewrite sum_loop_step; [|lia|simpl; intros [H|[]]; apply Hn1; rewrite H;
                                now left].
  rewrite sum_loop_step;
    [|lia|simpl; intros [H|[H|[]]];
          [apply Hn1; rewrite H; right; now left
          |apply Hn2; rewrite H; now left]].
  rewrite sum_loop_step;
    [|lia|simpl; intros [H|[H|[H|[]]]];
          [apply Hn1; rewrite H; right; right; now left
          |apply Hn2; rewrite H; right; now left
          |apply Hn3; rewrite H; now left]].
  reflexivity.
Qed.

Lemma summed_nothing (data : DataFrame num) (base a : nat) :
  summed num zero add data base a 0 = map (fun _ => zero) (seq 0 (nrows data)).
Proof. reflexivity. Qed.

(** C1 (amended): the count [n] is the number of words between the
    parentheses of the first [forces(...)] of the text, and 0 when there is
    none; on a table of at least [1 + 6 n] columns, with three component
    labels that differ from each other and from [Time], the force table
    holds for each component [a] the sums over [k < n] of the columns
    [1 + a + 3 k], the moment table those of the columns
    [1 + 3 n + a + 3 k], and each is handed to [plot_data]. *)
Theorem read_forces_sums (content : string) (data : DataFrame num)
  (filepath : PurePath) (cx cy cz : string) :
  COMPONENTS_EXT = [cx; cy; cz] ->
  List.NoDup
    ["Time"; FORCE_LABEL ++ cx; FORCE_LABEL ++ cy; FORCE_LABEL ++ cz] ->
  List.NoDup
    ["Time"; MOMENT_LABEL ++ cx; MOMENT_LABEL ++ cy; MOMENT_LABEL ++ cz] ->
  read_csv (without_brackets content) = Ok data ->
  let n := count_contribs content in
  (1 + 6 * n <= ncols data)%nat ->
  ((forall group, leftmost "forces(" content group ->
                  n = length (split group))
   /\ ((forall before group, ~ token "forces(" content before group) ->
       n = 0%nat))
  /\ exists time,
       iloc_col data 0 = Ok time
       /\ read_forces_body COMPONENTS_EXT num zero add FORCE_LABEL
            MOMENT_LABEL plot_data read_csv content filepath
          = io_bind
              (plot_data (block num zero add data time FORCE_LABEL cx cy cz 1 n)
                 filepath "forces")
              (fun _ =>
                 plot_data
                   (block num zero add data time MOMENT_LABEL cx cy cz
                      (1 + 3 * n) n)
                   filepath "moments").
Proof.
  intros Hc Hf Hm Hcsv n Hcols. split.
  - unfold n, count_contribs, Re.search_forces. split.
    + intros group Hl. now rewrite (search_group_leftmost _ _ _ Hl).
    + intros Hnone. now rewrite (search_group_none _ _ Hnone).
  - assert (Htime : exists time, iloc_col data 0 = Ok time).
    { unfold iloc_col, ncols in *.
      destruct (columns data) as [|[l c] cols]; [simpl in Hcols; lia|].
      now exists c. }
    destruct Htime as [time Htime]. exists time. split; [exact Htime|].
    unfold read_forces_body. fold n. rewrite Hcsv.
    cbn [io_bind app].
    rewrite (sum_contribs_block data time FORCE_LABEL cx cy cz 1 n
               Hc Hf Htime) by lia.
    cbn [io_bind app].
    destruct (plot_data (block num zero add data time FORCE_LABEL cx cy cz 1 n)
                filepath "forces") as [out [[]|e]]; [|reflexivity].
    cbn [io_bind].
    rewrite (sum_contribs_block data time MOMENT_LABEL cx cy cz (1 + 3 * n) n
               Hc Hm Htime) by lia.
    cbn [io_bind app].
    destruct (plot_data _ filepath "moments") as [out' r']. reflexivity.
Qed.

End ForcesProperties.

Lemma demo_labels (label : string) :
  label = "F" \/ label = "M" ->
  List.NoDup ["Time"; label ++ "x"; label ++ "y"; label ++ "z"].
Proof.
  intros [->| ->];
    repeat (apply List.NoDup_cons; [simpl; intuition discriminate|]);
    apply List.NoDup_nil.
Defined.

Lemma demo_columns :
  (1 + 6 * count_contribs demo_report <= ncols demo_table)%nat.
Proof. vm_compute. lia. Defined.

Lemma read_forces_sums_witness :
  ((forall group, leftmost "forces(" demo_report group ->
                  count_contribs demo_report = length (split group))
   /\ ((forall before group, ~ token "forces(" demo_report before group) ->
       count_contribs demo_report = 0%nat))
  /\ exists time,
       iloc_col demo_table 0 = Ok time
       /\ read_forces_body demo_components Z 0%Z Z.add "F" "M" demo_plot
            (fun _ => Ok demo_table) demo_report
            (Path "case/forces/0/forces.dat")
          = io_bind
              (demo_plot
                 (block Z 0%Z Z.add demo_table time "F" "x" "y" "z" 1
                    (count_contribs demo_report))
                 (Path "case/forces/0/forces.dat") "forces")
              (fun _ =>
                 demo_plot
                   (block Z 0%Z Z.add demo_table time "M" "x" "y" "z"
                      (1 + 3 * count_contribs demo_report)
                      (count_contribs demo_report))
                   (Path "case/forces/0/forces.dat") "moments").
Proof.
  exact (read_forces_sums Z 0%Z Z.add demo_components "F" "M" demo_plot
           (fun _ => Ok demo_table) demo_report demo_table
           (Path "case/forces/0/forces.dat") "x" "y" "z" eq_refl
           (demo_labels "F" (or_introl eq_refl))
           (demo_labels "M" (or_intror eq_refl))
           eq_refl demo_columns).
Defined.

(** The numbers of that report: two contributions, summed component by
    component. *)
Lemma read_forces_example :
  count_contribs demo_report = 2%nat
  /\ sum_contribs demo_components Z 0%Z Z.add demo_table 1 "F" 2
     = Ok [("Time", [0]); ("Fx", [1 + 4]); ("Fy", [2 + 5]); ("Fz", [3 + 6])]%Z
  /\ sum_contribs demo_components Z 0%Z Z.add demo_table 7 "M" 2
     = Ok [("Time", [0]); ("Mx", [7 + 10]); ("My", [8 + 11]);
           ("Mz", [9 + 12])]%Z.
Proof. repeat split; reflexivity. Qed.

(** C1 as it is worded fails where it says that a file without the token
    gives an empty result: the count is 0, and the result is the time
    column and three columns of zeros, one zero for each row. *)
Lemma read_forces_without_token :
  let content := "# Time forces" ++ nl ++ "0 1" ++ nl ++ "1 2" ++ nl in
  let data :=
    {| nrows := 2; columns := [("0", [1; 2]%Z); ("1", [3; 4]%Z)] |} in
  count_contribs content = 0%nat
  /\ sum_contribs demo_components Z 0%Z Z.add data 1 "F" 0
     = Ok [("Time", [1; 2]); ("Fx", [0; 0]); ("Fy", [0; 0]);
           ("Fz", [0; 0])]%Z
  /\ sum_contribs demo_components Z 0%Z Z.add data 1 "F" 0 <> Ok [].
Proof.
  repeat split. discriminate.
Qed.

(** * Further properties of the code *)

(** ** [find_files]: patterns that are refused, and files that do not match *)

Section ScannerEdges.
Variable fnmatch : bool -> string -> string -> bool.

Lemma keep_unusable (pattern : string) (exceptions : list string)
  (file : string) :
  ~ usable pattern ->
  keep fnmatch pattern exceptions file = Raise (ValueError "empty pattern").
Proof.
  intros H. unfold keep. now rewrite path_match_unusable.
Qed.

Lemma find_in_walk_unusable (pattern : string) (exceptions : list string)
  (walk : list (PurePath * list string)) (is_found : bool) :
  ~ usable pattern ->
  find_in_walk fnmatch pattern exceptions walk is_found
  = ([], is_found,
     if has_files walk then Some (ValueError "empty pattern") else None).
Proof.
  intros H. induction walk as [|[dir files] rest IH]; [reflexivity|].
  simpl. destruct files as [|file files]; simpl.
  - rewrite IH. reflexivity.
  - now rewrite keep_unusable.
Qed.

Lemma keep_no_match (pattern : string) (exceptions : list string)
  (file : string) :
  usable pattern -> ~ matches fnmatch file pattern ->
  keep fnmatch pattern exceptions file = Ok false.
Proof.
  intros Hu Hm. unfold keep, matches in *.
  destruct (path_match_usable fnmatch (Path file) pattern false Hu) as [b Hb].
  rewrite Hb in *. destruct b; [now destruct Hm|reflexivity].
Qed.

Lemma find_in_walk_no_match (pattern : string) (exceptions : list string)
  (walk : list (PurePath * list string)) (is_found : bool) :
  usable pattern ->
  (forall dir files file,
     In (dir, files) walk -> In file files ->
     ~ matches fnmatch file pattern) ->
  find_in_walk fnmatch pattern exceptions walk is_found
  = ([], is_found, None).
Proof.
  intros Hu. induction walk as [|[dir files] rest IH]; intros Hno;
    [reflexivity|].
  simpl.
  assert (Hfiles : forall found,
            find_in_files fnmatch pattern exceptions dir files found
            = ([], found, None)).
  { assert (Hin : forall file, In file files ->
                                ~ matches fnmatch file pattern).
    { intros file Hf. apply (Hno dir files file); [now left|exact Hf]. }
    clear Hno IH. induction files as [|file files IHf]; intros found;
      [reflexivity|].
    simpl. rewrite keep_no_match;
      [|exact Hu|apply Hin; now left].
    apply IHf. intros f Hf. apply Hin. now right. }
  rewrite Hfiles, IH; [reflexivity|].
  intros d fs f Hd Hf. apply (Hno d fs f); [now right|exact Hf].
Qed.

Lemma yields_usable (pattern : string) (path : PurePath)
  (walk : list (PurePath * list string)) (exceptions : list string)
  (p : PurePath) :
  usable pattern -> Forall usable exceptions ->
  (In p (yields (find_files fnmatch pattern path walk exceptions)) <->
   exists dir files file,
     In (dir, files) walk /\ In file files
     /\ p = joinpath_path dir (Path file)
     /\ wanted fnmatch pattern exceptions file).
Proof.
  intros Hp He. unfold find_files.
  pose proof (find_in_walk_usable fnmatch pattern exceptions walk Hp He false)
    as H.
  destruct (find_in_walk fnmatch pattern exceptions walk false)
    as [[ys found] e].
  destruct H as (_ & _ & Hin). simpl. apply Hin.
Qed.

End ScannerEdges.

(** X1: a pattern without components is refused only when a file is
    tested against it: the scan yields nothing, and it ends with
    [ValueError] when the tree holds a file, and with the message that
    nothing was found when the tree holds none. *)
Theorem find_files_unusable_pattern
  (fnmatch : bool -> string -> string -> bool) (pattern : string)
  (path : PurePath) (walk : list (PurePath * list string))
  (exceptions : list string) :
  ~ usable pattern ->
  let g := find_files fnmatch pattern path walk exceptions in
  yields g = []
  /\ the_end g
     = if has_files walk then Raised (ValueError "empty pattern")
       else Finished [NotFound pattern].
Proof.
  intros H. unfold find_files.
  rewrite (find_in_walk_unusable fnmatch pattern exceptions walk false H).
  now destruct (has_files walk).
Qed.

Lemma find_files_unusable_pattern_witness :
  (let g := find_files glob "./" (Path "case") sample_walk [] in
   yields g = [] /\ the_end g = Raised (ValueError "empty pattern"))
  /\ (let g := find_files glob "./" (Path "case") [(Path "case", [])] [] in
      yields g = [] /\ the_end g = Finished [NotFound "./"]).
Proof.
  assert (H : ~ usable "./").
  { intros [H|H]; [discriminate H|]. now apply H. }
  split.
  - exact (find_files_unusable_pattern glob "./" (Path "case") sample_walk []
             H).
  - exact (find_files_unusable_pattern glob "./" (Path "case")
             [(Path "case", [])] [] H).
Defined.

(** X2: the exclusions are looked at only for a file that matches the
    pattern: when no file of the tree matches, the scan ends without an
    error and with the message that nothing was found, whatever the
    exclusions are, a refused empty one included. *)
Theorem find_files_no_match
  (fnmatch : bool -> string -> string -> bool) (pattern : string)
  (path : PurePath) (walk : list (PurePath * list string))
  (exceptions : list string) :
  usable pattern ->
  (forall dir files file,
     In (dir, files) walk -> In file files ->
     ~ matches fnmatch file pattern) ->
  let g := find_files fnmatch pattern path walk exceptions in
  yields g = [] /\ the_end g = Finished [NotFound pattern].
Proof.
  intros Hu Hno. unfold find_files.
  now rewrite (find_in_walk_no_match fnmatch pattern exceptions walk false
                 Hu Hno).
Qed.

Lemma find_files_no_match_witness :
  let g := find_files glob "*.xy" (Path "case") sample_walk [""] in
  yields g = [] /\ the_end g = Finished [NotFound "*.xy"].
Proof.
  apply (find_files_no_match glob "*.xy" (Path "case") sample_walk [""]).
  - right. intros H. vm_compute in H. discriminate H.
  - intros dir files file Hd Hf Hm. unfold matches in Hm.
    repeat (destruct Hd as [Hd|Hd];
            [inversion Hd; subst;
             repeat (destruct Hf as [Hf|Hf];
                     [subst; vm_compute in Hm; discriminate Hm|]);
             destruct Hf|]).
    destruct Hd.
Defined.

(** ** From a discovered file to its output *)

Lemma Path_valid_name (file : string) :
  valid_name file -> Path file = {| root := ""; tail := [file] |}.
Proof.
  intros [Hp Hi]. unfold Path, parse_root.
  rewrite (startswith_char_contains "/" file Hp).
  rewrite split_on_no_sep by exact Hp.
  cbn [List.filter]. now rewrite Hi.
Qed.

Lemma joinpath_path_valid_name (dir : PurePath) (file : string) :
  valid_name file ->
  joinpath_path dir (Path file)
  = {| root := root dir; tail := (tail dir ++ [file])%list |}.
Proof.
  intros H. now rewrite (Path_valid_name file H).
Qed.

Lemma found_path (dir : PurePath) (file : string) :
  valid_name file ->
  parent (joinpath_path dir (Path file)) = dir
  /\ name (joinpath_path dir (Path file)) = file.
Proof.
  intros H. rewrite (joinpath_path_valid_name dir file H).
  unfold parent, name. cbn [root tail].
  rewrite removelast_snoc, last_snoc. split; [now destruct dir|reflexivity].
Qed.

Lemma selected_sublist (fnmatch : bool -> string -> string -> bool)
  (pattern : string) (exceptions files : list string) (file : string) :
  In file (fst (selected fnmatch pattern exceptions files)) -> In file files.
Proof.
  induction files as [|f files IH]; simpl; [intros []|].
  destruct (keep fnmatch pattern exceptions f) as [[|]|e]; simpl.
  - destruct (selected fnmatch pattern exceptions files) as [names e].
    simpl in *. intros [H|H]; [now left|right; now apply IH].
  - intros H. right. now apply IH.
  - intros [].
Qed.

Lemma yields_origin (fnmatch : bool -> string -> string -> bool)
  (pattern : string) (exceptions : list string)
  (walk : list (PurePath * list string)) (p : PurePath) :
  forall is_found,
    In p (fst (fst (find_in_walk fnmatch pattern exceptions walk is_found)))
    -> exists dir files file,
         In (dir, files) walk /\ In file files
         /\ p = joinpath_path dir (Path file).
Proof.
  induction walk as [|[dir files] rest IH]; intros is_found; simpl;
    [intros []|].
  rewrite find_in_files_selected.
  destruct (snd (selected fnmatch pattern exceptions files)) as [e|].
  - simpl. intros H. apply in_map_iff in H as (file & <- & Hf).
    exists dir, files, file. split; [now left|]. split; [|reflexivity].
    now apply selected_sublist in Hf.
  - specialize (IH (is_found
                    || nonempty
                         (fst (selected fnmatch pattern exceptions files)))).
    destruct (find_in_walk fnmatch pattern exceptions rest _)
      as [[ys found] e].
    simpl in *. intros H. apply in_app_iff in H as [H|H].
    + apply in_map_iff in H as (file & <- & Hf).
      exists dir, files, file. split; [now left|]. split; [|reflexivity].
      now apply selected_sublist in Hf.
    + destruct (IH H) as (d & fs & f & Hd & Hf & Hp).
      exists d, fs, f. split; [now right|]. now split.
Qed.

(** X3: with file names as a directory gives them, every path the scanner
    yields lies in a directory of the walk, under the name of one of its
    files, and the resolver sends its output to the parent of that
    directory, with the directory's name as timestep when [float] accepts
    that name. *)
Theorem found_file_output (fnmatch : bool -> string -> string -> bool)
  (EXTENSION pattern : string) (path : PurePath)
  (walk : list (PurePath * list string))
  (exceptions : list string) (filesuffix : string) :
  plain EXTENSION -> is_part EXTENSION = true ->
  Forall (fun entry => Forall plain (tail (fst entry))) walk ->
  valid_walk walk ->
  forall p,
    In p (yields (find_files fnmatch pattern path walk exceptions)) ->
    exists dir files,
      In (dir, files) walk /\ parent p = dir /\ In (name p) files
      /\ (let '(outfilepath, _, timestep, outdirname) :=
            get_output_filepath EXTENSION p filesuffix in
          parent outfilepath = parent dir
          /\ timestep = (if PyFloat.parses (name dir) then name dir else "0")
          /\ outdirname = name (parent dir)).
Proof.
  intros He Hi Hdirs Hw p Hp.
  assert (Horigin : exists dir files file,
            In (dir, files) walk /\ In file files
            /\ p = joinpath_path dir (Path file)).
  { unfold find_files in Hp.
    pose proof (yields_origin fnmatch pattern exceptions walk p false) as H.
    destruct (find_in_walk fnmatch pattern exceptions walk false)
      as [[ys found] e].
    simpl in *. now apply H. }
  destruct Horigin as (dir & files & file & Hin & Hfile & Heq).
  assert (Hf : valid_name file).
  { unfold valid_walk in Hw. rewrite List.Forall_forall in Hw.
    specialize (Hw (dir, files) Hin). simpl in Hw.
    rewrite List.Forall_forall in Hw. now apply Hw. }
  assert (Hd : Forall plain (tail dir)).
  { rewrite List.Forall_forall in Hdirs. apply (Hdirs (dir, files) Hin). }
  destruct (found_path dir file Hf) as [Hparent Hname].
  exists dir, files. rewrite Heq, Hparent, Hname.
  split; [exact Hin|]. split; [reflexivity|]. split; [exact Hfile|].
  rewrite (get_output_filepath_eq EXTENSION filesuffix
             (joinpath_path dir (Path file))). cbv zeta.
  rewrite Hparent.
  set (timestep := if PyFloat.parses (name dir) then name dir else "0").
  set (outname := output_name EXTENSION
                    (stem (joinpath_path dir (Path file))) filesuffix
                    timestep).
  assert (Hplain : plain outname).
  { apply output_name_plain; [exact He| |].
    - apply stem_plain. rewrite (joinpath_path_valid_name dir file Hf).
      cbn [tail]. apply Forall_app. split; [exact Hd|].
      constructor; [apply Hf|constructor].
    - unfold timestep. destruct (PyFloat.parses (name dir)); [|reflexivity].
      now apply name_plain. }
  assert (Hpart : is_part outname = true).
  { unfold outname, output_name. rewrite <- !append_assoc.
    now apply is_part_append. }
  destruct (parent_joinpath_component (parent dir) outname Hplain Hpart)
    as [Hout _].
  now repeat split.
Qed.

Lemma found_file_output_witness :
  exists dir files,
    In (dir, files) [(Path "case/cut/3.5", ["U.vtk"; "p.vtk"])]
    /\ parent (Path "case/cut/3.5/U.vtk") = dir
    /\ In (name (Path "case/cut/3.5/U.vtk")) files
    /\ (let '(outfilepath, _, timestep, outdirname) :=
          get_output_filepath ".png" (Path "case/cut/3.5/U.vtk") "Ux" in
        parent outfilepath = parent dir
        /\ timestep = (if PyFloat.parses (name dir) then name dir else "0")
        /\ outdirname = name (parent dir)).
Proof.
  apply (found_file_output glob ".png" "*.vtk" (Path "case")
           [(Path "case/cut/3.5", ["U.vtk"; "p.vtk"])] [] "Ux").
  - reflexivity.
  - reflexivity.
  - constructor; [apply Path_plain|constructor].
  - repeat constructor.
  - vm_compute. now left.
Defined.

(** ** The passes of the driver do not overlap *)

(** X4: with file names as a directory gives them, a file the pass over
    the data files yields is yielded neither by the pass over the residual
    files nor by the pass over the force files: each such file is read by
    one of these passes only. *)
Theorem dat_pass_is_disjoint (fnmatch : bool -> string -> string -> bool)
  (RES_FILE DAT_FILE FORCE_FILE : string) (path : PurePath)
  (walk : list (PurePath * list string)) :
  usable DAT_FILE -> usable RES_FILE -> usable FORCE_FILE ->
  valid_walk walk ->
  forall p,
    In p (yields (find_files fnmatch DAT_FILE path walk
                    [RES_FILE; FORCE_FILE])) ->
    ~ In p (yields (find_files fnmatch RES_FILE path walk []))
    /\ ~ In p (yields (find_files fnmatch FORCE_FILE path walk [])).
Proof.
  intros Hd Hr Hf Hw p Hp.
  apply yields_usable in Hp;
    [|exact Hd|repeat (apply List.Forall_cons; [assumption|]);
               apply List.Forall_nil].
  destruct Hp as (dir & files & file & Hin & Hfile & -> & [_ Hnone]).
  assert (Hvalid : valid_name file).
  { unfold valid_walk in Hw. rewrite List.Forall_forall in Hw.
    specialize (Hw (dir, files) Hin). simpl in Hw.
    rewrite List.Forall_forall in Hw. now apply Hw. }
  assert (Hother : forall pattern,
            usable pattern -> In pattern [RES_FILE; FORCE_FILE] ->
            ~ In (joinpath_path dir (Path file))
                (yields (find_files fnmatch pattern path walk []))).
  { intros pattern Hu Hpat Hq.
    apply yields_usable in Hq; [|exact Hu|apply List.Forall_nil].
    destruct Hq as (dir' & files' & file' & Hin' & Hfile' & Heq & [Hm _]).
    assert (Hvalid' : valid_name file').
    { unfold valid_walk in Hw. rewrite List.Forall_forall in Hw.
      specialize (Hw (dir', files') Hin'). simpl in Hw.
      rewrite List.Forall_forall in Hw. now apply Hw. }
    assert (Hsame : file = file').
    { rewrite <- (proj2 (found_path dir file Hvalid)).
      rewrite <- (proj2 (found_path dir' file' Hvalid')).
      now rewrite Heq. }
    subst file'. now apply (Hnone pattern Hpat). }
  split; apply Hother; try assumption; [now left|right; now left].
Qed.

Lemma dat_pass_is_disjoint_witness :
  ~ In (Path "case/0/yPlus.dat")
      (yields (find_files glob "residuals*" (Path "case")
                 [(Path "case/0", ["residuals.dat"; "forces.dat";
                                   "yPlus.dat"])] []))
  /\ ~ In (Path "case/0/yPlus.dat")
         (yields (find_files glob "forces*" (Path "case")
                    [(Path "case/0", ["residuals.dat"; "forces.dat";
                                      "yPlus.dat"])] [])).
Proof.
  apply (dat_pass_is_disjoint glob "residuals*" "*.dat" "forces*"
           (Path "case")
           [(Path "case/0", ["residuals.dat"; "forces.dat"; "yPlus.dat"])]).
  - right. intros H. vm_compute in H. discriminate H.
  - right. intros H. vm_compute in H. discriminate H.
  - right. intros H. vm_compute in H. discriminate H.
  - repeat constructor.
  - vm_compute. now left.
Defined.

(** ** [get_output_filepath]: which outputs coincide *)

Lemma length_append (s t : string) :
  String.length (s ++ t) = (String.length s + String.length t)%nat.
Proof.
  induction s as [|a s IH]; [reflexivity|].
  rewrite append_cons. simpl. now rewrite IH.
Qed.

Lemma append_cancel_l (s t u : string) : s ++ t = s ++ u -> t = u.
Proof.
  induction s as [|a s IH]; [trivial|].
  rewrite !append_cons. intros H. inversion H. now apply IH.
Qed.

Lemma append_cancel_r (s t e : string) : s ++ e = t ++ e -> s = t.
Proof.
  revert t. induction s as [|a s IH]; intros [|b t] H.
  - reflexivity.
  - apply (f_equal String.length) in H.
    rewrite !length_append in H. simpl in H. lia.
  - apply (f_equal String.length) in H.
    rewrite !length_append in H. simpl in H. lia.
  - rewrite !append_cons in H. inversion H. f_equal. now apply IH.
Qed.

Lemma output_name_timestep (EXTENSION base filesuffix t t' : string) :
  output_name EXTENSION base filesuffix t
  = output_name EXTENSION base filesuffix t' ->
  t = t'.
Proof.
  unfold output_name. intros H.
  apply append_cancel_l, append_cancel_l in H.
  destruct (String.eqb t "0") eqn:E, (String.eqb t' "0") eqn:E'.
  - apply String.eqb_eq in E, E'. congruence.
  - apply (f_equal String.length) in H.
    rewrite !length_append in H. simpl in H. lia.
  - apply (f_equal String.length) in H.
    rewrite !length_append in H. simpl in H. lia.
  - apply append_cancel_r in H. now inversion H.
Qed.

(** X5: the timestep ["0"] stands both for the directory named [0] and for
    a directory whose name is no number, so two files of the same stem
    under the same grandparent, one in each kind of directory, are given
    the same output path. *)
Theorem zero_timestep_is_ambiguous (EXTENSION : string) (p q : PurePath)
  (filesuffix : string) :
  stem p = stem q ->
  parent (parent p) = parent (parent q) ->
  name (parent p) = "0" ->
  PyFloat.parses (name (parent q)) = false ->
  get_output_filepath EXTENSION p filesuffix
  = get_output_filepath EXTENSION q filesuffix.
Proof.
  intros Hs Hg Hz Hn.
  rewrite (get_output_filepath_eq EXTENSION filesuffix p),
          (get_output_filepath_eq EXTENSION filesuffix q).
  cbv zeta. rewrite Hs, Hg, Hz, Hn. reflexivity.
Qed.

Lemma zero_timestep_is_ambiguous_witness :
  get_output_filepath ".png" (Path "case/probes/0/p.dat") ""
  = get_output_filepath ".png" (Path "case/probes/latest/p.dat") "".
Proof.
  apply zero_timestep_is_ambiguous; reflexivity.
Defined.

(** X6: two files of the same stem that lie in time directories with
    different names, both of them numbers, never share an output path, the
    suffix being the same. *)
Theorem time_directories_do_not_collide (EXTENSION s s' filesuffix : string) :
  plain EXTENSION -> is_part EXTENSION = true ->
  stem (Path s) = stem (Path s') ->
  PyFloat.parses (name (parent (Path s))) = true ->
  PyFloat.parses (name (parent (Path s'))) = true ->
  name (parent (Path s)) <> name (parent (Path s')) ->
  fst (fst (fst (get_output_filepath EXTENSION (Path s) filesuffix)))
  <> fst (fst (fst (get_output_filepath EXTENSION (Path s') filesuffix))).
Proof.
  intros He Hi Hs Hp Hp' Hne Heq.
  rewrite (get_output_filepath_eq EXTENSION filesuffix (Path s)),
          (get_output_filepath_eq EXTENSION filesuffix (Path s')) in Heq.
  cbv zeta in Heq. rewrite Hp, Hp', Hs in Heq. cbn [fst] in Heq.
  set (t := name (parent (Path s))) in *.
  set (t' := name (parent (Path s'))) in *.
  assert (Hname : forall x : string,
            x = t \/ x = t' ->
            plain (output_name EXTENSION (stem (Path s')) filesuffix x)
            /\ is_part (output_name EXTENSION (stem (Path s')) filesuffix x)
               = true).
  { intros x Hx. split.
    - apply output_name_plain; [exact He| |].
      + apply stem_plain, Path_plain.
      + destruct Hx as [->| ->]; apply name_plain, parent_plain, Path_plain.
    - unfold output_name. rewrite <- !append_assoc.
      now apply is_part_append. }
  destruct (Hname t (or_introl eq_refl)) as [H1 H2].
  destruct (Hname t' (or_intror eq_refl)) as [H1' H2'].
  apply (f_equal name) in Heq.
  rewrite (proj2 (parent_joinpath_component _ _ H1 H2)) in Heq.
  rewrite (proj2 (parent_joinpath_component _ _ H1' H2')) in Heq.
  apply output_name_timestep in Heq. contradiction.
Qed.

Lemma time_directories_do_not_collide_witness :
  PyFloat.parses (name (parent (Path "case/cut/1.0/U.vtk"))) = true
  /\ PyFloat.parses (name (parent (Path "case/cut/1/U.vtk"))) = true
  /\ fst (fst (fst (get_output_filepath ".png" (Path "case/cut/1.0/U.vtk")
                      "")))
     <> fst (fst (fst (get_output_filepath ".png" (Path "case/cut/1/U.vtk")
                         ""))).
Proof.
  split; [reflexivity|]. split; [reflexivity|].
  apply time_directories_do_not_collide; try reflexivity. discriminate.
Defined.

(** ** [get_units]: the components of a known field *)

Lemma rev_app_acc (s acc : string) :
  String.rev_app s acc = String.rev_app s "" ++ acc.
Proof.
  revert acc. induction s as [|a s IH]; intros acc; [reflexivity|].
  simpl. rewrite (IH (String a acc)), (IH (String a "")).
  now rewrite append_assoc.
Qed.

Lemma rev_append (s t : string) :
  String.rev (s ++ t) = String.rev t ++ String.rev s.
Proof.
  unfold String.rev.
  assert (H : forall acc,
            String.rev_app (s ++ t) acc
            = String.rev_app t (String.rev_app s acc)).
  { induction s as [|a s IH]; intros acc; [reflexivity|].
    rewrite append_cons. simpl. apply IH. }
  rewrite H. apply rev_app_acc.
Qed.

Lemma startswith_append (p r : string) : startswith p (p ++ r) = true.
Proof.
  induction p as [|a p IH]; [reflexivity|].
  rewrite append_cons. simpl. now rewrite Ascii.eqb_refl.
Qed.

Lemma endswith_append (base comp : string) :
  endswith comp (base ++ comp) = true.
Proof.
  unfold endswith. rewrite rev_append. apply startswith_append.
Qed.

Lemma substring_prefix (s t : string) :
  String.substring 0 (String.length s) (s ++ t) = s.
Proof.
  induction s as [|a s IH].
  - destruct t; reflexivity.
  - rewrite append_cons. simpl. now rewrite IH.
Qed.

(** Removing a suffix undoes appending it. *)
Lemma removesuffix_append (base comp : string) :
  removesuffix comp (base ++ comp) = base.
Proof.
  unfold removesuffix. rewrite endswith_append, length_append.
  replace (String.length base + String.length comp - String.length comp)%nat
    with (String.length base) by lia.
  apply substring_prefix.
Qed.

Lemma search_paren_without (s : string) :
  contains "(" s = false -> Re.search_paren s = None.
Proof.
  intros H. apply search_group_none. intros before group (rest & -> & _).
  rewrite !contains_app in H. simpl in H.
  now rewrite orb_true_r in H.
Qed.

Lemma strip_component_first (before after : list string)
  (base comp : string) :
  Forall (fun c => endswith c (base ++ comp) = false) before ->
  strip_component (before ++ comp :: after) (base ++ comp) = base.
Proof.
  induction 1 as [|c before Hc Hbefore IH]; simpl.
  - now rewrite endswith_append, removesuffix_append.
  - now rewrite Hc.
Qed.

(** X7: a name made of a field of the table and a component suffix, the
    first suffix of the list that the name ends with, is given the unit of
    the field, when the name itself is not in the table and holds no
    opening parenthesis. *)
Theorem get_units_of_component (UNITS_OF_MEASURE : gmap string string)
  (before after : list string) (base comp unit : string) :
  UNITS_OF_MEASURE !! base = Some unit ->
  UNITS_OF_MEASURE !! (base ++ comp) = None ->
  contains "(" (base ++ comp) = false ->
  Forall (fun c => endswith c (base ++ comp) = false) before ->
  get_units UNITS_OF_MEASURE (before ++ comp :: after) (base ++ comp)
  = " [" ++ unit ++ "]".
Proof.
  intros Hbase Hname Hparen Hfirst. unfold get_units, lookup_units.
  rewrite Hname, (search_paren_without _ Hparen).
  rewrite (strip_component_first before after base comp Hfirst).
  now rewrite Hbase.
Qed.

Lemma get_units_of_component_witness :
  get_units sample_units (["_x"] ++ "_y" :: ["_z"]) ("U" ++ "_y") = " [m/s]".
Proof.
  apply (get_units_of_component sample_units ["_x"] ["_z"] "U" "_y" "m/s").
  - reflexivity.
  - reflexivity.
  - reflexivity.
  - repeat constructor.
Defined.

(** ** [read_labels]: what the labels depend on, and what they keep *)

Lemma lines_go_newline (a cur b : string) :
  lines_go cur (a ++ String newline b)
  = (lines_go cur (a ++ nl) ++ lines_go "" b)%list.
Proof.
  revert cur. induction a as [|c a IH]; intros cur.
  - reflexivity.
  - rewrite !append_cons. simpl.
    destruct (Ascii.eqb c newline); [|apply IH].
    now rewrite IH.
Qed.

Lemma lines_go_head (s : string) :
  forall (c : ascii) (cur : string),
    exists t rest, lines_go (String c cur) s = String c t :: rest.
Proof.
  induction s as [|a s IH]; intros c cur; simpl.
  - eauto.
  - destruct (Ascii.eqb a newline).
    + rewrite append_cons. eauto.
    + rewrite append_cons. apply IH.
Qed.

Lemma file_lines_head (c : ascii) (s : string) :
  exists t rest, file_lines (String c s) = String c t :: rest.
Proof.
  unfold file_lines. simpl. destruct (Ascii.eqb c newline) eqn:E.
  - apply Ascii.eqb_eq in E. subst c. eauto.
  - apply lines_go_head.
Qed.

(** The scan of the leading comment lines does not go past a line that is
    no comment. *)
Lemma last_comment_stops (lines rest : list string)
  (orig_labels : option string) :
  (rest = [] \/ exists c t more, rest = String c t :: more /\ c <> "#"%char) ->
  last_comment (lines ++ rest) orig_labels = last_comment lines orig_labels.
Proof.
  intros Hrest. revert orig_labels.
  induction lines as [|line lines IH]; intros orig_labels.
  - destruct Hrest as [->|(c & t & more & -> & Hc)]; [reflexivity|].
    simpl. apply Ascii.eqb_neq in Hc. now rewrite Hc.
  - simpl. destruct line as [|c t]; [reflexivity|].
    destruct (Ascii.eqb c "#"); [apply IH|reflexivity].
Qed.

(** X8: the labels are read from the leading lines of the file only: what
    follows a line end does not change them, when it is empty or starts
    with a character other than [#]. *)
Theorem read_labels_ignores_rows (text body : string) :
  (body = "" \/ exists c s, body = String c s /\ c <> "#"%char) ->
  read_labels (text ++ nl ++ body) = read_labels (text ++ nl).
Proof.
  intros Hbody. unfold read_labels, file_lines.
  change (text ++ nl ++ body) with (text ++ String newline body).
  rewrite lines_go_newline, last_comment_stops; [reflexivity|].
  destruct Hbody as [->|(c & s & -> & Hc)]; [now left|right].
  destruct (file_lines_head c s) as (t & rest & H).
  exists c, t, rest. split; [exact H|exact Hc].
Qed.

Lemma read_labels_ignores_rows_witness :
  read_labels ("# Time p [Pa]" ++ nl ++ "0 1" ++ nl ++ "#late" ++ nl)
  = read_labels ("# Time p [Pa]" ++ nl).
Proof.
  apply (read_labels_ignores_rows "# Time p [Pa]"
           ("0 1" ++ nl ++ "#late" ++ nl)).
  right. exists "0"%char, (" 1" ++ nl ++ "#late" ++ nl).
  split; [reflexivity|discriminate].
Defined.

Lemma join_cons (sep x : string) (l : list string) :
  l <> [] -> join sep (x :: l) = x ++ sep ++ join sep l.
Proof. destruct l; [contradiction|reflexivity]. Qed.

Lemma labels_from_nonempty (tokens : list string) (current : string) :
  labels_from current tokens <> [].
Proof.
  revert current. induction tokens as [|t rest IH]; intros current; simpl.
  - discriminate.
  - destruct (Re.match_unit t); [apply IH|discriminate].
Qed.

Lemma join_labels_from (tokens : list string) (current : string) :
  join " " (labels_from current tokens) = join " " (current :: tokens).
Proof.
  revert current. induction tokens as [|t rest IH]; intros current;
    [reflexivity|].
  simpl labels_from. destruct (Re.match_unit t).
  - rewrite IH. destruct rest as [|r rest]; [reflexivity|].
    rewrite !join_cons by discriminate. now rewrite !append_assoc.
  - rewrite join_cons by apply labels_from_nonempty.
    rewrite IH. symmetry. apply join_cons. discriminate.
Qed.

Lemma length_labels_from (tokens : list string) (current : string) :
  length (labels_from current tokens)
  = S (length (List.filter (fun t => negb (Re.match_unit t)) tokens)).
Proof.
  revert current. induction tokens as [|t rest IH]; intros current;
    [reflexivity|].
  simpl. destruct (Re.match_unit t); simpl; now rewrite IH.
Qed.

(** X9: when [read_labels] returns, the labels joined by single spaces are
    the words of the label line joined by single spaces, so no word is lost
    or reordered, and there are as many labels as words that are not
    units. *)
Theorem read_labels_keeps_words (content line : string)
  (labels : list string) :
  last_comment (file_lines content) None = Some line ->
  read_labels content = Ok labels ->
  join " " labels = join " " (label_tokens line)
  /\ length labels
     = length (List.filter (fun t => negb (Re.match_unit t))
                 (label_tokens line)).
Proof.
  intros Hl Hr. unfold read_labels in Hr. rewrite Hl in Hr.
  destruct (label_tokens line) as [|t rest].
  - inversion Hr. split; reflexivity.
  - simpl in Hr. destruct (Re.match_unit t) eqn:Hu; [discriminate Hr|].
    pose proof (merge_labels_from rest [] t) as E. simpl in E, Hr.
    rewrite E in Hr.
    inversion Hr; subst labels. simpl. rewrite Hu. simpl.
    split; [apply join_labels_from|apply length_labels_from].
Qed.

Lemma read_labels_keeps_words_witness :
  join " " ["Time"; "p [Pa]"; "U [m/s] [SI]"]
  = join " " (label_tokens ("# Time p [Pa] U [m/s] [SI]" ++ nl))
  /\ length ["Time"; "p [Pa]"; "U [m/s] [SI]"]
     = length (List.filter (fun t => negb (Re.match_unit t))
                 (label_tokens ("# Time p [Pa] U [m/s] [SI]" ++ nl))).
Proof.
  apply (read_labels_keeps_words
           ("# Time p [Pa] U [m/s] [SI]" ++ nl ++ "0 1 2" ++ nl)
           ("# Time p [Pa] U [m/s] [SI]" ++ nl));
    reflexivity.
Defined.

(** ** [read_data]: the header check, the shape of the table, and what
    fails *)

Lemma strip_comment (line : string) :
  is_comment line = true -> startswith "#" (strip line) = true.
Proof.
  destruct line as [|c line]; [discriminate|].
  unfold is_comment. cbn [startswith]. rewrite andb_true_r. intros H.
  apply Ascii.eqb_eq in H. subst c. reflexivity.
Qed.

Lemma last_In {A : Type} (l : list A) (d : A) :
  l <> [] -> In (List.last l d) l.
Proof.
  induction l as [|x l IH]; intros H; [contradiction|].
  destruct l as [|y l]; [now left|].
  right. apply IH. discriminate.
Qed.

(** The second half of the header test never fails: a line kept as a
    comment still starts with [#] once it is stripped. *)
Lemma header_starts (content : string) :
  comment_lines content <> [] ->
  startswith "#" (List.last (map strip (comment_lines content)) "") = true.
Proof.
  intros Hne. rewrite (last_map strip _ "" "" Hne).
  apply strip_comment.
  pose proof (last_In (comment_lines content) "" Hne) as Hin.
  unfold comment_lines in Hin. now apply filter_In in Hin.
Qed.

Lemma to_cells_spec (column : list string) :
  to_cells column
  = if forallb convertible column then Ok (map cell_of column)
    else Raise (ValueError "could not convert string to float").
Proof.
  induction column as [|value column IH]; [reflexivity|].
  cbn [to_cells forallb map]. rewrite IH. unfold to_cell.
  change (convertible value)
    with (String.eqb (lower value) "n/a" || PyFloat.parses value).
  change (cell_of value)
    with (if String.eqb (lower value) "n/a" then NaN else Float value).
  destruct (String.eqb (lower value) "n/a"), (PyFloat.parses value),
    (forallb convertible column); reflexivity.
Qed.

Lemma to_arrays_spec (columns : list (list string)) :
  to_arrays columns
  = if forallb (forallb convertible) columns
    then Ok (map (map cell_of) columns)
    else Raise (ValueError "could not convert string to float").
Proof.
  induction columns as [|column columns IH]; [reflexivity|].
  cbn [to_arrays forallb map]. rewrite to_cells_spec, IH.
  destruct (forallb convertible column),
    (forallb (forallb convertible) columns); reflexivity.
Qed.

(** [read_data] in one equation. *)
Lemma read_data_eq (content : string) :
  read_data content
  = if (2 <=? length (comment_lines content))%nat then
      if forallb (forallb convertible) (transpose (data_rows content))
      then Ok (header_names content,
               map (map cell_of) (transpose (data_rows content)))
      else Raise not_convertible
    else Raise no_header.
Proof.
  unfold read_data. fold (comment_lines content). fold (data_rows content).
  rewrite length_map.
  destruct (2 <=? length (comment_lines content))%nat eqn:E;
    [|reflexivity].
  rewrite header_starts.
  - rewrite (last_map strip _ "" "").
    + fold (header_names content). simpl. rewrite to_arrays_spec.
      now destruct (forallb (forallb convertible) _).
    + intros Hnil. rewrite Hnil in E. discriminate E.
  - intros Hnil. rewrite Hnil in E. discriminate E.
Qed.

Lemma fold_left_min_le (l : list nat) (a : nat) :
  (fold_left Nat.min l a <= a)%nat
  /\ (forall x, In x l -> (fold_left Nat.min l a <= x)%nat)
  /\ (fold_left Nat.min l a = a \/ In (fold_left Nat.min l a) l).
Proof.
  revert a. induction l as [|y l IH]; intros a; simpl.
  - split; [lia|]. split; [intros x []|now left].
  - destruct (IH (Nat.min a y)) as (H1 & H2 & H3).
    split; [lia|]. split.
    + intros x [<-|Hx]; [lia|now apply H2].
    + destruct H3 as [H3|H3]; [|right; now right].
      destruct (Nat.min_dec a y) as [Hm|Hm]; rewrite Hm in *.
      * now left.
      * right. now left.
Qed.

(** The zip of the rows: every column has one entry per row, and there
    are as many columns as the shortest row has words. *)
Lemma transpose_shape (rows : list (list string)) :
  Forall (fun column => length column = length rows) (transpose rows)
  /\ (forall row, In row rows -> (length (transpose rows) <= length row)%nat)
  /\ (rows <> [] ->
      exists row, In row rows /\ length (transpose rows) = length row).
Proof.
  destruct rows as [|r rest].
  - split; [constructor|]. split; [intros row []|congruence].
  - unfold transpose.
    destruct (fold_left_min_le (map (@length string) rest) (length r))
      as (H1 & H2 & H3).
    set (n := fold_left Nat.min (map (@length string) rest) (length r)) in *.
    split; [|split].
    + apply List.Forall_forall. intros column Hc.
      apply in_map_iff in Hc as (i & <- & _). now rewrite length_map.
    + intros row Hrow. rewrite length_map, length_seq.
      destruct Hrow as [<-|Hrow]; [exact H1|].
      apply H2. now apply in_map.
    + intros _. rewrite length_map, length_seq.
      destruct H3 as [H3|H3].
      * exists r. split; [now left|exact H3].
      * apply in_map_iff in H3 as (row & Hlen & Hrow).
        exists row. split; [now right|now symmetry].
Qed.

(** X10: [read_data] raises the error of the missing header exactly when
    fewer than two lines start with [#]: the second test of the header,
    that the last such line starts with [#], never fails. *)
Theorem read_data_no_header_iff (content : string) :
  read_data content = Raise no_header
  <-> (length (comment_lines content) < 2)%nat.
Proof.
  rewrite read_data_eq.
  destruct (2 <=? length (comment_lines content))%nat eqn:E.
  - apply Nat.leb_le in E. split; [|lia].
    destruct (forallb _ _); discriminate.
  - apply Nat.leb_gt in E. split; [intros _; exact E|reflexivity].
Qed.

(** X11: when [read_data] returns, every column has one entry per line
    that does not start with [#], no line has fewer words than there are
    columns, and some line has exactly that many: the columns are cut to
    the shortest line. *)
Theorem read_data_shape (content : string) (field_names : list string)
  (numeric_data : list (list LiveResiduals.cell)) :
  read_data content = Ok (field_names, numeric_data) ->
  Forall (fun column => length column = length (data_rows content))
    numeric_data
  /\ (forall row, In row (data_rows content) ->
                  (length numeric_data <= length row)%nat)
  /\ (data_rows content <> [] ->
      exists row, In row (data_rows content)
                  /\ length numeric_data = length row).
Proof.
  rewrite read_data_eq.
  destruct (2 <=? _)%nat; [|discriminate].
  destruct (forallb _ _); [|discriminate].
  intros H. inversion H; subst field_names numeric_data. clear H.
  destruct (transpose_shape (data_rows content)) as (H1 & H2 & H3).
  rewrite length_map. split; [|split; [exact H2|exact H3]].
  apply List.Forall_forall. intros column Hc.
  apply in_map_iff in Hc as (c & <- & Hc). rewrite length_map.
  rewrite List.Forall_forall in H1. now apply H1.
Qed.

Lemma read_data_shape_witness :
  Forall (fun column => length column = 2%nat) [[Float "0"; Float "1"]]
  /\ (forall row, In row [["0"; "1e-3"]; ["1"]] -> (1 <= length row)%nat)
  /\ ([["0"; "1e-3"]; ["1"]] <> [] ->
      exists row, In row [["0"; "1e-3"]; ["1"]] /\ 1%nat = length row).
Proof.
  apply (read_data_shape
           ("# Residuals" ++ nl ++ "# Time p" ++ nl
            ++ "0 1e-3" ++ nl ++ "1" ++ nl)
           ["Time"; "p"] [[Float "0"; Float "1"]]).
  reflexivity.
Defined.

(** X12: with its two header lines, [read_data] returns the words of the
    zipped rows as numbers, [n/a] in any case as [nan], when each of them
    is [n/a] or a float, and raises its own [ValueError] otherwise; the
    words beyond the shortest row are not looked at. *)
Theorem read_data_outcome (content : string) :
  (2 <= length (comment_lines content))%nat ->
  read_data content
  = if forallb (forallb convertible) (transpose (data_rows content))
    then Ok (header_names content,
             map (map cell_of) (transpose (data_rows content)))
    else Raise not_convertible.
Proof.
  intros H. rewrite read_data_eq.
  apply Nat.leb_le in H. now rewrite H.
Qed.

Lemma read_data_outcome_witness :
  read_data ("# Residuals" ++ nl ++ "# Time p" ++ nl
             ++ "0 N/A oops" ++ nl ++ "1 1e-3" ++ nl)
  = Ok (["Time"; "p"], [[Float "0"; Float "1"]; [NaN; Float "1e-3"]]).
Proof.
  apply (read_data_outcome
           ("# Residuals" ++ nl ++ "# Time p" ++ nl
            ++ "0 N/A oops" ++ nl ++ "1 1e-3" ++ nl)).
  vm_compute. lia.
Defined.

(** X13: a file with its two header lines and a line without any word
    among the others, an empty line for one, or without any other line at
    all, gives [read_data] no column, whatever the other lines hold; the
    script then stops at [numeric_data[0]] with [IndexError]. *)
Theorem blank_line_stops_the_script (content : string) :
  (2 <= length (comment_lines content))%nat ->
  data_rows content = [] \/ In [] (data_rows content) ->
  read_data content = Ok (header_names content, [])
  /\ first_read content = Raise (IndexError "list index out of range").
Proof.
  intros Hh Hrows.
  assert (Ht : transpose (data_rows content) = []).
  { destruct Hrows as [Hrows|Hrows].
    - now rewrite Hrows.
    - destruct (transpose_shape (data_rows content)) as (_ & H2 & _).
      specialize (H2 [] Hrows). simpl in H2.
      destruct (transpose (data_rows content)); [reflexivity|].
      simpl in H2. lia. }
  assert (Hr : read_data content = Ok (header_names content, [])).
  { rewrite read_data_eq, Ht. apply Nat.leb_le in Hh. now rewrite Hh. }
  split; [exact Hr|]. unfold first_read. now rewrite Hr.
Qed.

Lemma blank_line_stops_the_script_witness :
  read_data ("# Residuals" ++ nl ++ "# Time p" ++ nl
             ++ "0 1e-3" ++ nl ++ nl)
  = Ok (["Time"; "p"], [])
  /\ first_read ("# Residuals" ++ nl ++ "# Time p" ++ nl
                 ++ "0 1e-3" ++ nl ++ nl)
     = Raise (IndexError "list index out of range").
Proof.
  apply (blank_line_stops_the_script
           ("# Residuals" ++ nl ++ "# Time p" ++ nl
            ++ "0 1e-3" ++ nl ++ nl)).
  - vm_compute. lia.
  - right. vm_compute. right. now left.
Defined.

(** ** [read_forces]: a table with too few columns *)

Section ForcesEdges.
Variable num : Type.
Variable zero : num.
Variable add : num -> num -> num.
Variable COMPONENTS_EXT : list string.
Variable FORCE_LABEL MOMENT_LABEL : string.
Variable plot_data : list (string * list num) -> PurePath -> string -> io unit.
Variable read_csv : string -> result (DataFrame num).

(** The loop of [sum_contribs] raises as soon as the last column one of
    its turns asks for is not in the table, at that turn or at an earlier
    one. *)
Lemma sum_loop_out_of_range (data : DataFrame num) (n : nat)
  (todo : list (nat * string)) (df : list (string * list num)) :
  (1 <= n)%nat ->
  Exists (fun t => (ncols data <= fst t + 3 * (n - 1))%nat) todo ->
  sum_loop num zero add data n todo df
  = Raise (IndexError "positional indexers are out-of-bounds").
Proof.
  intros Hn Hex. revert df.
  induction todo as [|[index label] todo IH]; intros df.
  - inversion Hex.
  - cbn [sum_loop]. unfold iloc_cols.
    destruct (forallb _ _) eqn:F; [|reflexivity].
    cbn [rbind]. apply IH.
    apply Exists_cons in Hex as [Hhd|Htl]; [exfalso|exact Htl].
    cbn [fst] in Hhd.
    assert (Hin : In (index + 3 * (n - 1))%nat
                    (map (fun k => (index + 3 * k)%nat) (seq 0 n))).
    { apply in_map_iff. exists (n - 1)%nat. split; [reflexivity|].
      apply in_seq. lia. }
    pose proof (proj1 (forallb_forall _ _) F _ Hin) as Hlt.
    apply Nat.ltb_lt in Hlt. lia.
Qed.

Lemma sum_contribs_out_of_range (data : DataFrame num) (time : list num)
  (label cx cy cz : string) (base n : nat) :
  COMPONENTS_EXT = [cx; cy; cz] ->
  iloc_col data 0 = Ok time ->
  (1 <= n)%nat ->
  (ncols data <= base + 3 * n - 1)%nat ->
  sum_contribs COMPONENTS_EXT num zero add data base label n
  = Raise (IndexError "positional indexers are out-of-bounds").
Proof.
  intros Hc Ht Hn Hrange. unfold sum_contribs. rewrite Ht, Hc.
  replace (seq base 3) with [base + 0; base + 1; base + 2]%nat
    by (cbn [seq]; repeat (f_equal; try lia)).
  cbn [rbind map zip]. apply sum_loop_out_of_range; [exact Hn|].
  apply Exists_cons_tl, Exists_cons_tl, Exists_cons_hd. cbn [fst]. lia.
Qed.

(** X14: a report that announces [n] contributions, [n] at least 1, over
    a table of at most [6 n] columns never has its moments drawn: with at
    least [1 + 3 n] columns the forces are summed and handed to
    [plot_data], and then the sums of the moments raise [IndexError]; with
    fewer, the sums of the forces raise it and nothing is drawn. *)
Theorem read_forces_short_table (content : string) (data : DataFrame num)
  (filepath : PurePath) (cx cy cz : string) :
  COMPONENTS_EXT = [cx; cy; cz] ->
  List.NoDup
    ["Time"; FORCE_LABEL ++ cx; FORCE_LABEL ++ cy; FORCE_LABEL ++ cz] ->
  read_csv (without_brackets content) = Ok data ->
  let n := count_contribs content in
  (1 <= ncols data <= 6 * n)%nat ->
  exists time,
    iloc_col data 0 = Ok time
    /\ read_forces_body COMPONENTS_EXT num zero add FORCE_LABEL
         MOMENT_LABEL plot_data read_csv content filepath
       = if (1 + 3 * n <=? ncols data)%nat then
           io_bind
             (plot_data (block num zero add data time FORCE_LABEL cx cy cz 1 n)
                filepath "forces")
             (fun _ =>
                ([], Raise
                       (IndexError "positional indexers are out-of-bounds")))
         else
           ([], Raise (IndexError "positional indexers are out-of-bounds")).
Proof.
  intros Hc Hf Hcsv n Hcols.
  assert (Htime : exists time, iloc_col data 0 = Ok time).
  { unfold iloc_col, ncols in *.
    destruct (columns data) as [|[l c] cols]; [simpl in Hcols; lia|].
    now exists c. }
  destruct Htime as [time Htime]. exists time. split; [exact Htime|].
  unfold read_forces_body. fold n. rewrite Hcsv. cbn [io_bind app].
  destruct (1 + 3 * n <=? ncols data)%nat eqn:E.
  - apply Nat.leb_le in E.
    rewrite (sum_contribs_block num zero add COMPONENTS_EXT data time
               FORCE_LABEL cx cy cz 1 n Hc Hf Htime) by lia.
    cbn [io_bind app].
    destruct (plot_data (block num zero add data time FORCE_LABEL cx cy cz 1 n)
                filepath "forces") as [out [[]|e]]; [|reflexivity].
    cbn [io_bind].
    rewrite (sum_contribs_out_of_range data time MOMENT_LABEL cx cy cz
               (1 + 3 * n) n Hc Htime) by lia.
    cbn [io_bind]. now rewrite app_nil_r.
  - apply Nat.leb_gt in E.
    rewrite (sum_contribs_out_of_range data time FORCE_LABEL cx cy cz
               1 n Hc Htime) by lia.
    reflexivity.
Qed.

End ForcesEdges.

Lemma read_forces_short_table_witness :
  exists time,
    iloc_col demo_short_table 0 = Ok time
    /\ read_forces_body demo_components Z 0%Z Z.add "F" "M" demo_plot
         (fun _ => Ok demo_short_table) demo_report
         (Path "case/forces/0/forces.dat")
       = io_bind
           (demo_plot
              (block Z 0%Z Z.add demo_short_table time "F" "x" "y" "z" 1 2)
              (Path "case/forces/0/forces.dat") "forces")
           (fun _ =>
              ([], Raise
                     (IndexError "positional indexers are out-of-bounds"))).
Proof.
  apply (read_forces_short_table Z 0%Z Z.add demo_components "F" "M"
           demo_plot (fun _ => Ok demo_short_table) demo_report
           demo_short_table (Path "case/forces/0/forces.dat") "x" "y" "z"
           eq_refl (demo_labels "F" (or_introl eq_refl)) eq_refl).
  vm_compute. split; lia.
Defined.

(** ** The driver: what gets past the error boundary *)

Lemma until_interrupt_app (jobs jobs' : list job) :
  until_interrupt (jobs ++ jobs')
  = match snd (until_interrupt jobs) with
    | Ok _ =>
        ((fst (until_interrupt jobs) ++ fst (until_interrupt jobs'))%list,
         snd (until_interrupt jobs'))
    | Raise e => (fst (until_interrupt jobs), Raise e)
    end.
Proof.
  induction jobs as [|[f [lines [v|e]]] jobs IH]; cbn [until_interrupt app].
  - now destruct (until_interrupt jobs').
  - rewrite IH. cbn [fst snd].
    now destruct (snd (until_interrupt jobs)).
  - destruct (is_Exception e); [|reflexivity].
    rewrite IH. cbn [fst snd]. now destruct (snd (until_interrupt jobs)).
Qed.

Lemma stops_bind {A B : Type} (jobs jobs' : list job) (m : io A)
  (k : A -> io B) :
  stops jobs m -> (forall a, stops jobs' (k a)) ->
  stops (jobs ++ jobs')%list (io_bind m k).
Proof.
  destruct m as [out [a|e]]; intros [Hp Hr] Hk; unfold stops;
    rewrite until_interrupt_app; cbn [fst snd io_bind] in *.
  - destruct (snd (until_interrupt jobs)); [|discriminate Hr].
    destruct (Hk a) as [Hp' Hr']. destruct (k a) as [out' r'].
    cbn [fst snd] in *. rewrite processed_app, Hp, Hp'. now split.
  - destruct (snd (until_interrupt jobs)); [discriminate Hr|].
    simpl. split; [exact Hp|]. now inversion Hr.
Qed.

Lemma stops_quiet {A : Type} (out : list event) (a : A) :
  processed out = [] -> stops [] (out, Ok a).
Proof. intros H. now split. Qed.

(** The boundary: a decorated reader lets through what is no instance of
    [Exception]. *)
Lemma stops_decorated (body : PurePath -> list string * result unit)
  (f : PurePath) :
  stops [(f, body f)]
    (read_file_decorator (fun filepath => reports (body filepath)) f).
Proof.
  unfold stops, read_file_decorator, reports.
  destruct (body f) as [lines [v|e]]; cbn [until_interrupt fst snd].
  - cbn [processed]. now rewrite processed_reports.
  - destruct (is_Exception e); cbn [fst snd processed].
    + now rewrite processed_app, processed_reports.
    + now rewrite processed_reports.
Qed.

Lemma stops_for_each (body : PurePath -> list string * result unit)
  (files : list PurePath) :
  stops (jobs_for body files)
    (for_each files
       (read_file_decorator (fun filepath => reports (body filepath)))).
Proof.
  induction files as [|f files IH].
  - now apply stops_quiet.
  - change (jobs_for body (f :: files))
      with ([(f, body f)] ++ jobs_for body files)%list.
    cbn [for_each]. apply stops_bind; [apply stops_decorated|].
    intros _. exact IH.
Qed.

Lemma stops_for_gen (fnmatch : bool -> string -> string -> bool)
  (body : PurePath -> list string * result unit)
  (pattern : string) (path : PurePath)
  (walk : list (PurePath * list string)) (exceptions : list string) :
  usable pattern -> Forall usable exceptions ->
  let g := find_files fnmatch pattern path walk exceptions in
  stops (jobs_for body (yields g))
    (for_gen g
       (read_file_decorator (fun filepath => reports (body filepath)))).
Proof.
  intros Hp He g.
  destruct (find_files_finishes fnmatch pattern path walk exceptions Hp He)
    as (out & Hend & Hout & Hfirst).
  fold g in Hend, Hfirst. unfold for_gen. rewrite Hend.
  change (jobs_for body (yields g))
    with ([] ++ jobs_for body (yields g))%list.
  apply stops_bind; [now apply stops_quiet|]. intros _.
  rewrite <- (app_nil_r (jobs_for body (yields g))).
  apply stops_bind; [apply stops_for_each|]. intros _.
  now apply stops_quiet.
Qed.

Section DriverInterrupted.
Variables VTK_FILE CLOUD_FILE RES_FILE DAT_FILE XY_FILE FORCE_FILE : string.
Variable paths : list PurePath.
Variable fnmatch : bool -> string -> string -> bool.
Variable walk : PurePath -> list (PurePath * list string).
Variable vtk2image_body : PurePath -> list string * result unit.
Variable read_dat_body : PurePath -> bool -> bool -> list string * result unit.
Variable read_forces_body : PurePath -> list string * result unit.

(** The patterns of the options are patterns [pathlib] accepts; the
    readers raise what they will. *)
Hypothesis usable_patterns :
  Forall usable [VTK_FILE; CLOUD_FILE; RES_FILE; DAT_FILE; XY_FILE; FORCE_FILE].

Lemma stops_analyze (path : PurePath) :
  stops
    (jobs_of VTK_FILE CLOUD_FILE RES_FILE DAT_FILE XY_FILE FORCE_FILE
       fnmatch walk vtk2image_body read_dat_body read_forces_body path)
    (analyze VTK_FILE CLOUD_FILE RES_FILE DAT_FILE XY_FILE FORCE_FILE
       fnmatch walk vtk2image_body read_dat_body read_forces_body path).
Proof.
  pose proof usable_patterns as H.
  repeat (apply Forall_cons_iff in H as [? H]).
  unfold jobs_of, analyze, scan, vtk2image, read_dat, Main.read_forces.
  do 4 (apply stops_bind;
        [apply stops_for_gen;
         solve [ assumption
               | repeat (apply List.Forall_cons; [assumption|]);
                 apply List.Forall_nil ]
        |intros _]).
  apply (stops_for_gen fnmatch read_forces_body);
    solve [ assumption | apply List.Forall_nil ].
Qed.

Lemma stops_analyze_all (ps : list PurePath) :
  stops
    (flat_map
       (jobs_of VTK_FILE CLOUD_FILE RES_FILE DAT_FILE XY_FILE FORCE_FILE
          fnmatch walk vtk2image_body read_dat_body read_forces_body)
       ps)
    (analyze_all VTK_FILE CLOUD_FILE RES_FILE DAT_FILE XY_FILE FORCE_FILE
       fnmatch walk vtk2image_body read_dat_body read_forces_body ps).
Proof.
  induction ps as [|path ps IH]; cbn [flat_map analyze_all].
  - now apply stops_quiet.
  - apply stops_bind; [apply stops_analyze|]. intros _. exact IH.
Qed.

(** X15: whatever the readers raise, the program starts the files of its
    scans in order up to the first file on which a reader raises something
    that is no instance of [Exception], a [KeyboardInterrupt] for one, and
    ends there with that exception uncaught; the files after it are not
    started.  Without such a file it starts them all and exits with 0. *)
Theorem main_stops_at_interrupt :
  let run :=
    main VTK_FILE CLOUD_FILE RES_FILE DAT_FILE XY_FILE FORCE_FILE paths
      fnmatch walk vtk2image_body read_dat_body read_forces_body in
  let jobs :=
    flat_map
      (jobs_of VTK_FILE CLOUD_FILE RES_FILE DAT_FILE XY_FILE FORCE_FILE
         fnmatch walk vtk2image_body read_dat_body read_forces_body)
      paths in
  processed (fst run) = fst (until_interrupt jobs)
  /\ snd run
     = match snd (until_interrupt jobs) with
       | Ok _ => Exited 0
       | Raise e => Uncaught e
       end.
Proof.
  cbv zeta. unfold main. destruct (stops_analyze_all paths) as [Hp Hr].
  destruct (analyze_all _ _ _ _ _ _ _ _ _ _ _ paths) as [out [[]|e]];
    cbn [fst snd] in *.
  - split; [exact Hp|].
    destruct (snd (until_interrupt _)); [reflexivity|discriminate Hr].
  - split; [exact Hp|].
    destruct (snd (until_interrupt _)); [discriminate Hr|].
    now inversion Hr.
Qed.

End DriverInterrupted.

Lemma main_stops_at_interrupt_witness :
  let run :=
    main "*.vtk" "cloud*.vtk" "residuals*.dat" "*.dat" "*.xy" "force*.dat"
      [Path "case"] glob demo_walk demo_quiet demo_interrupted demo_quiet in
  processed (fst run)
  = [Path "case/postProcessing/probes/0/a.dat";
     Path "case/postProcessing/probes/0/b.dat"]
  /\ snd run = Uncaught KeyboardInterrupt.
Proof.
  exact (main_stops_at_interrupt
           "*.vtk" "cloud*.vtk" "residuals*.dat" "*.dat" "*.xy" "force*.dat"
           [Path "case"] glob demo_walk demo_quiet demo_interrupted demo_quiet
           demo_usable).
Defined.

(** ** [vtk2image]: the arrays after the renaming, and the images *)







Section VtkProperties.
Variable EXTENSION : string.
Variable UNITS_OF_MEASURE : gmap string string.
Variable COMPONENTS_EXT : list string.
Variable scalar : Type.
Variables MAGNITUDE_EXT DEFAULT_COLORMAP : string.
Variable COLORMAPS : gmap string string.




End VtkProperties.
Section VtkImages.
Variable EXTENSION : string.
Variable UNITS_OF_MEASURE : gmap string string.
Variable COMPONENTS_EXT : list string.
Variable scalar : Type.
Variables MAGNITUDE_EXT DEFAULT_COLORMAP : string.
Variable COLORMAPS : gmap string string.




End VtkImages.





(** The images of that mesh: the scalar under its name, the vector by
    component and then as a whole, each without its unit. *)
Lemma vtk2image_example :
  vtk2image_images ".png" demo_units demo_components Z "mag" "viridis"
    (<["p" := "coolwarm"]> ∅) demo_arrays [] (Path "case/VTK/case_100.vtk")
  = ([Report "Loading cell data..."],
     Ok [(Path "case/case_100_p.png", "coolwarm");
         (Path "case/case_100_Ux.png", "viridis");
         (Path "case/case_100_Uy.png", "viridis");
         (Path "case/case_100_Uz.png", "viridis");
         (Path "case/case_100_Umag.png", "viridis")]).
Proof. vm_compute. reflexivity. Qed.

(** X18: a first array of three numbers, a scalar on a mesh of three
    cells, is taken for a vector, since its last dimension is 3, and its
    first component is asked for: [vtk2image] raises [IndexError] before
    anything is drawn, whatever the other arrays are. *)
Theorem vtk2image_three_cells (EXTENSION : string)
  (UNITS_OF_MEASURE : gmap string string) (comp : string)
  (comps : list string) (scalar : Type)
  (MAGNITUDE_EXT DEFAULT_COLORMAP : string) (COLORMAPS : gmap string string)
  (array_name : string) (a b c : scalar)
  (rest point_data : list (string * ndarray scalar)) (filepath : PurePath) :
  vtk2image_images EXTENSION UNITS_OF_MEASURE (comp :: comps) scalar
    MAGNITUDE_EXT DEFAULT_COLORMAP COLORMAPS
    ((array_name, Array1 [a; b; c]) :: rest) point_data filepath
  = ([Report "Loading cell data..."],
     Raise (IndexError "too many indices for array")).
Proof.
  unfold vtk2image_images, load_data.
  cbn [length Nat.ltb Nat.leb io_bind map fst rename_arrays dict_get].
  rewrite String.eqb_refl. reflexivity.
Qed.
(** ** [vtk2image]: the name of an image *)

Lemma sub_units_go_plain (s t : string) :
  contains "[" s = false ->
  Re.sub_units_go None (s ++ t) = s ++ Re.sub_units_go None t.
Proof.
  induction s as [|c s IH]; intros H; [reflexivity|].
  simpl in H. apply orb_false_iff in H as [Hc Hs].
  rewrite !append_cons. cbn [Re.sub_units_go]. rewrite Hc.
  now rewrite IH.
Qed.

Lemma sub_units_go_close (u t : string) :
  contains "]" u = false -> contains newline u = false ->
  forall kept,
    Re.sub_units_go (Some kept) (u ++ String "]" t) = Re.sub_units_go None t.
Proof.
  induction u as [|c u IH]; intros Hb Hn kept; [reflexivity|].
  simpl in Hb, Hn.
  apply orb_false_iff in Hb as [Hb Hbs]. apply orb_false_iff in Hn as [Hn Hns].
  rewrite append_cons. cbn [Re.sub_units_go]. rewrite Hb, Hn.
  now apply IH.
Qed.

Lemma sub_spaces_app (s t : string) :
  Re.sub_spaces (s ++ t) = Re.sub_spaces s ++ Re.sub_spaces t.
Proof.
  induction s as [|c s IH]; [reflexivity|].
  rewrite append_cons. cbn [Re.sub_spaces].
  destruct (is_space c); [exact IH|]. now rewrite append_cons, IH.
Qed.

Lemma sub_spaces_spaceless (s : string) :
  spaceless s = true -> Re.sub_spaces s = s.
Proof.
  induction s as [|c s IH]; intros H; [reflexivity|].
  simpl in H. apply andb_true_iff in H as [Hc Hs].
  cbn [Re.sub_spaces]. apply negb_true_iff in Hc. rewrite Hc.
  now rewrite IH.
Qed.

(** X19: the name of an image is the name of its array: for a name, with
    its component or magnitude suffix, without white space and opening
    bracket, the two substitutions take the unit that [get_units] gave
    back out of the new name of the array, when no unit of the table
    holds a closing bracket or a line end. *)
Theorem image_named_after_array (UNITS_OF_MEASURE : gmap string string)
  (COMPONENTS_EXT : list string) (array_name ext : string) :
  (forall key unit,
     UNITS_OF_MEASURE !! key = Some unit ->
     contains "]" unit = false /\ contains newline unit = false) ->
  spaceless (array_name ++ ext) = true ->
  contains "[" (array_name ++ ext) = false ->
  image_suffix
    (array_name ++ ext ++ get_units UNITS_OF_MEASURE COMPONENTS_EXT array_name)
  = array_name ++ ext.
Proof.
  intros Hunits Hs Hb. unfold image_suffix, Re.sub_units.
  rewrite <- append_assoc, get_units_units_of.
  rewrite (sub_units_go_plain _ _ Hb).
  destruct (units_of_form UNITS_OF_MEASURE COMPONENTS_EXT array_name)
    as [->|(key & unit & Hkey & ->)].
  - cbn [Re.sub_units_go]. rewrite append_empty_r.
    now apply sub_spaces_spaceless.
  - destruct (Hunits key unit Hkey) as [Hc Hn]. unfold bracketed.
    rewrite !append_cons. cbn [Re.sub_units_go Ascii.eqb Bool.eqb].
    change ("" ++ unit ++ "]") with (unit ++ String "]" "").
    rewrite (sub_units_go_close unit "" Hc Hn).
    rewrite sub_spaces_app, (sub_spaces_spaceless _ Hs). cbn.
    apply append_empty_r.
Qed.

Lemma image_named_after_array_witness :
  image_suffix ("U" ++ "x" ++ get_units demo_units demo_components "U")
  = "U" ++ "x".
Proof.
  apply (image_named_after_array demo_units demo_components "U" "x").
  - intros key unit H. unfold demo_units in H.
    apply lookup_insert_Some in H as [[_ <-]|[_ H]]; [now split|].
    apply lookup_insert_Some in H as [[_ <-]|[_ H]]; [now split|].
    rewrite lookup_empty in H. discriminate H.
  - reflexivity.
  - reflexivity.
Defined.

(** ** [adjust_camera]: the index of the up direction *)

Lemma np_minimum_In (a b : float) : np_minimum a b = a \/ np_minimum a b = b.
Proof. unfold np_minimum. destruct (_ || _); auto. Qed.

Lemma fold_left_np_minimum_In (l : list float) (x : float) :
  fold_left np_minimum l x = x \/ In (fold_left np_minimum l x) l.
Proof.
  revert x. induction l as [|y l IH]; intros x; [now left|].
  cbn [fold_left]. destruct (IH (np_minimum x y)) as [H|H]; [|right; now right].
  rewrite H. destruct (np_minimum_In x y) as [E|E]; rewrite E;
    [left|right]; auto. now left.
Qed.

Lemma np_min_In (a : list float) :
  a <> [] -> exists m, np_min a = Ok m /\ In m a.
Proof.
  destruct a as [|x rest]; [congruence|]. intros _. unfold np_min.
  eexists. split; [reflexivity|].
  destruct (fold_left_np_minimum_In rest x) as [H|H]; [left|right]; auto.
Qed.

Lemma where_from_nonempty (mask : list bool) (i : nat) :
  In true mask -> where_from i mask <> [].
Proof.
  revert i. induction mask as [|b mask IH]; intros i H; [destruct H|].
  cbn [where_from]. destruct b; [discriminate|].
  destruct H as [H|H]; [discriminate H|]. now apply IH.
Qed.

Lemma length_assign {A : Type} (idx : list nat) (v : A) (a : list A) :
  length (assign idx v a) = length a.
Proof.
  unfold assign. revert a. induction idx as [|i idx IH]; intros a;
    [reflexivity|].
  cbn [fold_left]. now rewrite IH, length_insert.
Qed.

Lemma Forall_assign {A : Type} (P : A -> Prop) (idx : list nat) (v : A)
  (a : list A) :
  P v -> Forall P a -> Forall P (assign idx v a).
Proof.
  intros Hv. unfold assign. revert a.
  induction idx as [|i idx IH]; intros a Ha; [exact Ha|].
  cbn [fold_left]. apply IH. now apply Forall_insert.
Qed.

(** X20: [adjust_camera] raises nothing when none of the three extents
    it computes is a NaN, overflowed extents included: the smallest of
    the extents is then found again among them, so [min_indices[-1]]
    exists; and the camera is reset in every case. *)
Theorem adjust_camera_returns (CAMERA_ZOOM : float) (mesh : Mesh) :
  (forall a, (a < 3)%nat -> PrimFloat.is_nan (extent mesh a) = false) ->
  exists ops,
    adjust_camera CAMERA_ZOOM mesh = Ok ops /\ In ResetCamera ops.
Proof.
  intros Hnan. unfold adjust_camera. cbv zeta.
  destruct (negb (length (np_where _) =? 1)%nat).
  { eexists. split; [reflexivity|now left]. }
  match goal with
  | |- context [np_min ?a] =>
      assert (Hall : Forall (fun d => PrimFloat.is_nan d = false) a);
      [|destruct (np_min_In a) as (m & Hm & Hin);
        [|rewrite Hm; cbn [rbind];
          pose proof (where_from_nonempty
                        (map (fun d => PrimFloat.eqb d m) a) 0) as Hw;
          fold (np_where (map (fun d => PrimFloat.eqb d m) a)) in Hw;
          destruct (np_where (map (fun d => PrimFloat.eqb d m) a))]]
  end.
  - apply Forall_assign; [reflexivity|].
    destruct mesh as [[[[[[x0 x1] y0] y1] z0] z1] c].
    repeat apply List.Forall_cons; try apply List.Forall_nil.
    + exact (Hnan 0%nat ltac:(lia)).
    + exact (Hnan 1%nat ltac:(lia)).
    + exact (Hnan 2%nat ltac:(lia)).
  - intros Hnil. apply (f_equal (@length float)) in Hnil.
    rewrite length_assign, !length_map in Hnil.
    destruct mesh as [[[[[[x0 x1] y0] y1] z0] z1] c]. discriminate Hnil.
  - exfalso. apply Hw; [|reflexivity]. apply in_map_iff.
    exists m. split; [|exact Hin]. apply float_eqb_refl.
    rewrite List.Forall_forall in Hall. now apply Hall.
  - eexists. split; [reflexivity|]. right. now left.
Qed.

Lemma adjust_camera_returns_witness :
  exists ops, adjust_camera 2 wide_slice = Ok ops /\ In ResetCamera ops.
Proof.
  apply (adjust_camera_returns 2 wide_slice).
  intros a Ha. axes a; reflexivity.
Defined.
